(** * ShadowByte: payload protocol and key-recovery engine

    A shallow embedding of [ShadowByte.py] (class [Stegano]) and the
    properties of its payload protocol: key derivation, framing, the
    capacity guard, decoding, and the brute-force scheduler.

    Conventions.
    - A Python [bytes] value is a [list byte].
    - A Python [str] value is a [string] holding its UTF-8 encoding, so
      [s.encode()] is [list_byte_of_string] and [b.decode()] succeeds exactly
      on well-formed UTF-8.
    - The file system is a finite map from paths to file contents.
    - The functions of the libraries the program calls that are simple and
      central (hashlib.sha256, base64, bytes.split) are written out; the
      cipher, the image codec and the JSON codec are fields of a record of
      collaborators, with their documented contracts as named predicates. *)

From Stdlib Require Import ZArith List Lia Bool String Ascii Init.Byte Strings.Byte.
From stdpp Require Import gmap strings list.
Import ListNotations.

Local Open Scope Z_scope.

(** ** Bytes *)

Abbreviation bytes := (list byte).

#[global] Instance byte_eq_decision : EqDecision byte := Byte.byte_eq_dec.

Definition byte_to_Z (b : byte) : Z := Z.of_N (Byte.to_N b).

Definition byte_of_Z (z : Z) : byte :=
  match Byte.of_N (Z.to_N (z mod 256)) with
  | Some b => b
  | None => x00
  end.

(** Printable ASCII, from the space to the tilde. *)
Definition printable (b : byte) : bool :=
  (0x20 <=? byte_to_Z b) && (byte_to_Z b <=? 0x7E).

(** ** base64 (library model)

    [b64encode] and [urlsafe_b64encode] differ only in the last two letters
    of the alphabet. *)
Module Base64.

Definition std_alphabet : bytes :=
  list_byte_of_string "ABCDEFGHIJKLMNOPQRSTUVWXYZabcdefghijklmnopqrstuvwxyz0123456789+/".

Definition url_alphabet : bytes :=
  list_byte_of_string "ABCDEFGHIJKLMNOPQRSTUVWXYZabcdefghijklmnopqrstuvwxyz0123456789-_".

Definition PAD : byte := "=".

Definition letter (alphabet : bytes) (i : Z) : byte :=
  nth (Z.to_nat i) alphabet PAD.

(** One group of three bytes gives four letters; a final group of one or
    two bytes is padded with [=]. *)
Fixpoint encode_with (alphabet : bytes) (s : bytes) : bytes :=
  match s with
  | [] => []
  | [a] =>
      let a := byte_to_Z a in
      [letter alphabet (a / 4); letter alphabet (a mod 4 * 16); PAD; PAD]
  | [a; b] =>
      let a := byte_to_Z a in
      let b := byte_to_Z b in
      [letter alphabet (a / 4); letter alphabet (a mod 4 * 16 + b / 16);
       letter alphabet (b mod 16 * 4); PAD]
  | a :: b :: c :: rest =>
      let a := byte_to_Z a in
      let b := byte_to_Z b in
      let c := byte_to_Z c in
      letter alphabet (a / 4) :: letter alphabet (a mod 4 * 16 + b / 16)
        :: letter alphabet (b mod 16 * 4 + c / 64) :: letter alphabet (c mod 64)
        :: encode_with alphabet rest
  end.

Definition b64encode : bytes -> bytes := encode_with std_alphabet.
Definition urlsafe_b64encode : bytes -> bytes := encode_with url_alphabet.

(** Position of a letter in the alphabet, 64 for any other byte
    (binascii's table_a2b_base64). *)
Fixpoint index_from (i : Z) (alphabet : bytes) (c : byte) : Z :=
  match alphabet with
  | [] => 64
  | x :: rest => if Byte.eqb x c then i else index_from (i + 1) rest c
  end.

(** [base64.b64decode(s)] without validation is [binascii.a2b_base64] in its
    non-strict mode: bytes outside the alphabet are skipped, a pad sequence
    that completes a quad ends the input, and leftover letters are an error.
    The state is the position in the quad, the bits left over from the
    previous letter, and the number of pads seen in a row. *)
Fixpoint a2b (alphabet : bytes) (quad_pos leftchar pads : Z) (s : bytes) : option bytes :=
  match s with
  | [] => if quad_pos =? 0 then Some [] else None
  | c :: rest =>
      if Byte.eqb c PAD then
        if (2 <=? quad_pos) && (4 <=? quad_pos + (pads + 1)) then Some []
        else a2b alphabet quad_pos leftchar (if 2 <=? quad_pos then pads + 1 else pads) rest
      else
        let this_ch := index_from 0 alphabet c in
        if 64 <=? this_ch then a2b alphabet quad_pos leftchar pads rest
        else if quad_pos =? 0 then a2b alphabet 1 this_ch 0 rest
        else if quad_pos =? 1 then
          option_map (cons (byte_of_Z (leftchar * 4 + this_ch / 16)))
                     (a2b alphabet 2 (this_ch mod 16) 0 rest)
        else if quad_pos =? 2 then
          option_map (cons (byte_of_Z (leftchar * 16 + this_ch / 4)))
                     (a2b alphabet 3 (this_ch mod 4) 0 rest)
        else
          option_map (cons (byte_of_Z (leftchar * 64 + this_ch)))
                     (a2b alphabet 0 0 0 rest)
  end.

Definition decode_with (alphabet : bytes) (s : bytes) : option bytes := a2b alphabet 0 0 0 s.

Definition b64decode : bytes -> option bytes := decode_with std_alphabet.

(** An alphabet is good when each of its 64 letters is printable, is not the
    pad, and is found back at its own position. *)
Definition good_letter (alphabet : bytes) (n : nat) : bool :=
  let i := Z.of_nat n in
  (index_from 0 alphabet (letter alphabet i) =? i)
  && negb (Byte.eqb (letter alphabet i) PAD)
  && printable (letter alphabet i).

Definition good_alphabet (alphabet : bytes) : bool :=
  forallb (good_letter alphabet) (seq 0 64).

End Base64.

(** ** hashlib.sha256 (library model, FIPS 180-4)

    Words are integers below [2^32]; every addition is reduced. *)
Module SHA256.

Definition wrap (x : Z) : Z := x mod 2 ^ 32.
Definition add (x y : Z) : Z := wrap (x + y).
Definition rotr (n x : Z) : Z := Z.lor (Z.shiftr x n) (wrap (Z.shiftl x (32 - n))).
Definition shr (n x : Z) : Z := Z.shiftr x n.
Definition lnot32 (x : Z) : Z := 2 ^ 32 - 1 - x.

Definition Ch (x y z : Z) : Z := Z.lxor (Z.land x y) (Z.land (lnot32 x) z).
Definition Maj (x y z : Z) : Z := Z.lxor (Z.lxor (Z.land x y) (Z.land x z)) (Z.land y z).
Definition Sigma0 (x : Z) : Z := Z.lxor (Z.lxor (rotr 2 x) (rotr 13 x)) (rotr 22 x).
Definition Sigma1 (x : Z) : Z := Z.lxor (Z.lxor (rotr 6 x) (rotr 11 x)) (rotr 25 x).
Definition sigma0 (x : Z) : Z := Z.lxor (Z.lxor (rotr 7 x) (rotr 18 x)) (shr 3 x).
Definition sigma1 (x : Z) : Z := Z.lxor (Z.lxor (rotr 17 x) (rotr 19 x)) (shr 10 x).

(** The integer part of the [k]-th root of [n], by bisection between [lo]
    and [hi]. *)
Fixpoint root_between (fuel : nat) (k n lo hi : Z) : Z :=
  match fuel with
  | O => lo
  | S fuel' =>
      let mid := (lo + hi) / 2 in
      if mid ^ k <=? n then root_between fuel' k n mid hi
      else root_between fuel' k n lo mid
  end.

(** The first 32 bits of the fractional part of the [k]-th root of [p]. *)
Definition fraction_bits (k p : Z) : Z :=
  root_between 64 k (p * 2 ^ (32 * k)) 0 (2 ^ 40) mod 2 ^ 32.

Definition primes : list Z :=
  [2; 3; 5; 7; 11; 13; 17; 19; 23; 29; 31; 37; 41; 43; 47; 53; 59; 61; 67; 71; 73; 79; 83; 89;
   97; 101; 103; 107; 109; 113; 127; 131; 137; 139; 149; 151; 157; 163; 167; 173; 179; 181;
   191; 193; 197; 199; 211; 223; 227; 229; 233; 239; 241; 251; 257; 263; 269; 271; 277; 281;
   283; 293; 307; 311].

(** The round constants come from the cube roots of the first 64 primes,
    the initial hash value from the square roots of the first 8. *)
Definition K : list Z := Eval vm_compute in map (fraction_bits 3) primes.

Definition H0 : list Z := Eval vm_compute in map (fraction_bits 2) (firstn 8 primes).

(** Big-endian serialisation of a word on [n] bytes. *)
Fixpoint be_bytes (n : nat) (x : Z) : bytes :=
  match n with
  | O => []
  | S k => byte_of_Z (Z.shiftr x (8 * Z.of_nat k)) :: be_bytes k x
  end.

Fixpoint be_word (acc : Z) (s : bytes) : Z :=
  match s with
  | [] => acc
  | b :: rest => be_word (acc * 256 + byte_to_Z b) rest
  end.

(** Padding: a one bit, zeros up to 56 modulo 64, the bit length on 8 bytes. *)
Definition pad (msg : bytes) : bytes :=
  let len := Z.of_nat (length msg) in
  msg ++ [x80] ++ repeat x00 (Z.to_nat ((55 - len) mod 64)) ++ be_bytes 8 (8 * len).

Fixpoint words (n : nat) (s : bytes) : list Z :=
  match n with
  | O => []
  | S k => be_word 0 (firstn 4 s) :: words k (skipn 4 s)
  end.

(** The message schedule, newest word first: [w] holds W[t-1], W[t-2], ... *)
Fixpoint extend (n : nat) (w : list Z) : list Z :=
  match n with
  | O => w
  | S k =>
      let wt := add (add (sigma1 (nth 1 w 0)) (nth 6 w 0))
                    (add (sigma0 (nth 14 w 0)) (nth 15 w 0)) in
      extend k (wt :: w)
  end.

Definition schedule (block : bytes) : list Z := rev (extend 48 (rev (words 16 block))).

Record regs := Regs { ra : Z; rb : Z; rc : Z; rd : Z; re : Z; rf : Z; rg : Z; rh : Z }.

Definition round (r : regs) (kw : Z * Z) : regs :=
  let t1 := add (add (add (add (rh r) (Sigma1 (re r))) (Ch (re r) (rf r) (rg r))) (fst kw)) (snd kw) in
  let t2 := add (Sigma0 (ra r)) (Maj (ra r) (rb r) (rc r)) in
  Regs (add t1 t2) (ra r) (rb r) (rc r) (add (rd r) t1) (re r) (rf r) (rg r).

Definition compress (h : regs) (block : bytes) : regs :=
  let r := fold_left round (combine K (schedule block)) h in
  Regs (add (ra h) (ra r)) (add (rb h) (rb r)) (add (rc h) (rc r)) (add (rd h) (rd r))
       (add (re h) (re r)) (add (rf h) (rf r)) (add (rg h) (rg r)) (add (rh h) (rh r)).

Fixpoint blocks (n : nat) (h : regs) (s : bytes) : regs :=
  match n with
  | O => h
  | S k => blocks k (compress h (firstn 64 s)) (skipn 64 s)
  end.

Definition init : regs :=
  Regs (nth 0 H0 0) (nth 1 H0 0) (nth 2 H0 0) (nth 3 H0 0)
       (nth 4 H0 0) (nth 5 H0 0) (nth 6 H0 0) (nth 7 H0 0).

Definition digest (msg : bytes) : bytes :=
  let p := pad msg in
  let r := blocks (length p / 64) init p in
  be_bytes 4 (ra r) ++ be_bytes 4 (rb r) ++ be_bytes 4 (rc r) ++ be_bytes 4 (rd r)
    ++ be_bytes 4 (re r) ++ be_bytes 4 (rf r) ++ be_bytes 4 (rg r) ++ be_bytes 4 (rh r).

End SHA256.

(** ** Python [str] and [bytes] operations *)

Abbreviation str := string.

(** [s.encode()] *)
Definition str_encode (s : str) : bytes := list_byte_of_string s.

Definition continuation (b : byte) : bool :=
  (0x80 <=? byte_to_Z b) && (byte_to_Z b <=? 0xBF).

(** Well-formed UTF-8, as the strict decoder accepts it: shortest forms only,
    no surrogates, nothing above U+10FFFF. *)
Fixpoint utf8_valid (s : bytes) : bool :=
  match s with
  | [] => true
  | a :: s1 =>
      let a := byte_to_Z a in
      if a <? 0x80 then utf8_valid s1
      else
        match s1 with
        | [] => false
        | b :: s2 =>
            if (0xC2 <=? a) && (a <=? 0xDF) then continuation b && utf8_valid s2
            else
              match s2 with
              | [] => false
              | c :: s3 =>
                  let lo := if a =? 0xE0 then 0xA0 else if a =? 0xF0 then 0x90 else 0x80 in
                  let hi := if a =? 0xED then 0x9F else if a =? 0xF4 then 0x8F else 0xBF in
                  let second := (lo <=? byte_to_Z b) && (byte_to_Z b <=? hi) in
                  if (0xE0 <=? a) && (a <=? 0xEF) then second && continuation c && utf8_valid s3
                  else
                    match s3 with
                    | [] => false
                    | d :: s4 =>
                        if (0xF0 <=? a) && (a <=? 0xF4)
                        then second && continuation c && continuation d && utf8_valid s4
                        else false
                    end
              end
        end
  end.

(** [b.decode()]: [None] stands for UnicodeDecodeError. *)
Definition bytes_decode (b : bytes) : option str :=
  if utf8_valid b then Some (string_of_list_byte b) else None.

(** The separator of the frame, [b'\x00\x00\x00']. *)
Definition separator : bytes := [x00; x00; x00].

(** [s.split(separator)]: the pieces between the occurrences of the
    separator, found from left to right without overlap. [cur] is the piece
    being read, in reverse. *)
Fixpoint split_from (cur : bytes) (s : bytes) : list bytes :=
  match s with
  | x00 :: x00 :: x00 :: rest => rev cur :: split_from [] rest
  | c :: rest => split_from (c :: cur) rest
  | [] => [rev cur]
  end.

Definition split (s : bytes) : list bytes := split_from [] s.

(** The separator occurs in [s] at position [i]. *)
Definition occurs_at (s : bytes) (i : nat) : Prop := firstn 3 (skipn i s) = separator.

Definition ascii_lower (c : ascii) : ascii :=
  let n := nat_of_ascii c in
  if (65 <=? n)%nat && (n <=? 90)%nat then ascii_of_nat (n + 32) else c.

(** [s.lower()], on the letters A to Z; every other byte of the encoding is
    kept, which is enough to decide a suffix made of ASCII letters. *)
Fixpoint lower (s : str) : str :=
  match s with
  | EmptyString => EmptyString
  | String c rest => String (ascii_lower c) (lower rest)
  end.

(** [s.endswith(suffix)] *)
Definition endswith (s suffix : str) : bool :=
  (String.length suffix <=? String.length s)%nat
  && String.eqb (substring (String.length s - String.length suffix) (String.length suffix) s) suffix.

(** [os.path.basename(p)]: what follows the last slash. *)
Fixpoint basename_from (cur : str) (p : str) : str :=
  match p with
  | EmptyString => cur
  | String c rest =>
      if Ascii.eqb c "/" then basename_from rest rest else basename_from cur rest
  end.

Definition basename (p : str) : str := basename_from p p.

(** ** The world the program runs in *)

Inductive Exn : Type :=
  | ValueError | TypeError | AttributeError | UnicodeDecodeError
  | BinasciiError | JSONDecodeError | FileNotFoundError
  | InvalidToken | CodecError.

(** What the program prints, what it appends to [stegano.log], and its calls
    into the embedding adapter. *)
Inductive Event : Type :=
  | PrintNotPng
  | PrintTooLarge (message_size max_message_size : Z)
  | PrintMessageSize (message_size : Z)
  | PrintEncoded
  | PrintEncryptionKey (key : str)
  | PrintInvalidKey
  | PrintCorrupted
  | PrintDecodedMessage (message : str)
  | PrintSaved (output_filename : str)
  | PrintNoHiddenMessage
  | LogKeyFromUser
  | LogRandomKey
  | LogKeyError (e : Exn)
  | LogEncrypted
  | LogEncryptError (e : Exn)
  | LogDecrypted
  | LogDecryptError (e : Exn)
  | LogInvalidKey
  | LogKeyForEncoding (key : str)
  | LogReadError (e : Exn)
  | LogOpenError (e : Exn)
  | LogEncodeError (e : Exn)
  | LogDecodeError (e : Exn)
  | PrintLoaded (total_words : nat)
  | PrintSuccess (key : str)
  | PrintNoValidMessage
  | PrintInterrupted
  | CallHide (image_path : str) (message : str)
  | CallReveal (image_path : str).

Record World : Type := mkWorld {
  files : gmap string bytes;      (* regular files, by path *)
  urandom : nat -> byte;          (* the bytes os.urandom will deliver *)
  drawn : nat;                    (* how many of them were consumed *)
  clock : Z;                      (* time.time() *)
  trace : list Event              (* newest first *)
}.

Inductive outcome (A : Type) : Type :=
  | Raise (e : Exn)
  | Return (a : A).
Arguments Raise {A} e.
Arguments Return {A} a.

(** A computation reads and changes the world, and returns or raises. What
    it did to the world before raising stays done. *)
Definition Py (A : Type) : Type := World -> outcome A * World.

Definition ret {A} (a : A) : Py A := fun w => (Return a, w).
Definition raise {A} (e : Exn) : Py A := fun w => (Raise e, w).

Definition bind {A B} (m : Py A) (k : A -> Py B) : Py B :=
  fun w =>
    match m w with
    | (Return a, w') => k a w'
    | (Raise e, w') => (Raise e, w')
    end.

Definition try_except {A} (body : Py A) (handler : Exn -> Py A) : Py A :=
  fun w =>
    match body w with
    | (Return a, w') => (Return a, w')
    | (Raise e, w') => handler e w'
    end.

Notation "x <- m ;; k" := (bind m (fun x => k))
  (at level 100, m at next level, right associativity).
Notation "m ;; k" := (bind m (fun _ => k))
  (at level 100, right associativity).

(** The world after one more event, and after a file was given contents. *)
Definition record (e : Event) (w : World) : World :=
  mkWorld (files w) (urandom w) (drawn w) (clock w) (e :: trace w).

Definition store (p : str) (data : bytes) (w : World) : World :=
  mkWorld (<[p := data]> (files w)) (urandom w) (drawn w) (clock w) (trace w).

Definition emit (e : Event) : Py unit := fun w => (Return tt, record e w).

Definition or_raise {A} (e : Exn) (o : option A) : Py A :=
  match o with
  | Some a => ret a
  | None => raise e
  end.

(** [os.urandom(n)] *)
Definition os_urandom (n : nat) : Py bytes :=
  fun w => (Return (map (urandom w) (seq (drawn w) n)),
            mkWorld (files w) (urandom w) (drawn w + n) (clock w) (trace w)).

Definition time_time : Py Z := fun w => (Return (clock w), w).

(** [os.path.isfile(p)] *)
Definition os_path_isfile (p : str) : Py bool :=
  fun w => (Return (bool_decide (is_Some (files w !! p))), w).

(** [open(p, "rb").read()] *)
Definition read_file (p : str) : Py bytes :=
  fun w => (match files w !! p with
            | Some data => Return data
            | None => Raise FileNotFoundError
            end, w).

(** [open(p, "wb")]: the file is created, or emptied if it exists. The empty
    path cannot be opened. *)
Definition open_wb (p : str) : Py unit :=
  fun w => if String.eqb p EmptyString then (Raise FileNotFoundError, w)
           else (Return tt, store p [] w).

(** [f.write(data)] on a file just opened for writing. *)
Definition write_file (p : str) (data : bytes) : Py unit :=
  fun w => (Return tt, store p data w).

(** ** Collaborators

    The values [json.loads] can return. *)
#[local] Unset Elimination Schemes.
Inductive JSON : Type :=
  | JNull
  | JBool (b : bool)
  | JNumber (n : Z)
  | JString (s : str)
  | JArray (items : list JSON)
  | JObject (members : list (str * JSON)).
#[local] Set Elimination Schemes.

(** The libraries the program is glue for. [None] stands for a raised
    exception. *)
Record Libs : Type := mkLibs {
  (* cryptography.fernet: Fernet(key).encrypt(data) with the IV and the time
     it draws, and Fernet(key).decrypt(token) *)
  Fernet_encrypt : bytes -> bytes -> Z -> bytes -> option bytes;
  Fernet_decrypt : bytes -> bytes -> option bytes;
  (* PIL.Image and stegano.lsb *)
  Image : Type;
  Image_open : bytes -> option Image;
  Image_width : Image -> Z;
  Image_height : Image -> Z;
  Image_save : Image -> str -> option bytes;
  lsb_hide : Image -> str -> option Image;
  lsb_reveal : Image -> option (option str);
  (* json *)
  json_dumps : JSON -> str;
  json_loads : bytes -> option JSON
}.

(** [d.get(key, default)] on the dictionary built from an object: the last
    member with the key wins. *)
Definition dict_get (members : list (str * JSON)) (key : str) (default : JSON) : JSON :=
  fold_left (fun acc kv => if String.eqb (fst kv) key then snd kv else acc) members default.

(** [value == text] *)
Definition is_str (value : JSON) (text : str) : bool :=
  match value with
  | JString s => String.eqb s text
  | _ => false
  end.

(** Truth value of an optional string: [None] and the empty string are false. *)
Definition truthy (s : option str) : bool :=
  match s with
  | Some s => negb (String.eqb s EmptyString)
  | None => false
  end.

(** ** class Stegano *)

(** How [encode] ended: which [return] was reached. *)
Inductive EncodeExit : Type :=
  | ExitNotPng        (* the image is not named *.png *)
  | ExitNoKey         (* no key *)
  | ExitReadError     (* the input file could not be read *)
  | ExitOpenError     (* the image could not be opened *)
  | ExitTooLarge      (* the capacity check refused the message *)
  | ExitEncodeError   (* hiding or saving raised *)
  | ExitEncoded.      (* the image was written *)

Section Stegano.

Context (L : Libs).

(** [b.decode()] inside a computation *)
Definition decode_str (b : bytes) : Py str := or_raise UnicodeDecodeError (bytes_decode b).

Definition ensure_png (image_path : str) : Py bool :=
  if negb (endswith (lower image_path) ".png")
  then emit PrintNotPng ;; ret false
  else ret true.

(** [Fernet.generate_key()] *)
Definition Fernet_generate_key : Py bytes :=
  raw <- os_urandom 32 ;; ret (Base64.urlsafe_b64encode raw).

Definition generate_key (user_key : option str) : Py (option bytes) :=
  try_except
    (if truthy user_key then
       let key := SHA256.digest (str_encode (default EmptyString user_key)) in
       let key := Base64.urlsafe_b64encode key in
       emit LogKeyFromUser ;; ret (Some key)
     else
       key <- Fernet_generate_key ;;
       emit LogRandomKey ;; ret (Some key))
    (fun e => emit (LogKeyError e) ;; ret None).

Definition encrypt (data key : bytes) : Py (option bytes) :=
  try_except
    (iv <- os_urandom 16 ;;
     now <- time_time ;;
     encrypted_data <- or_raise ValueError (Fernet_encrypt L key iv now data) ;;
     emit LogEncrypted ;; ret (Some encrypted_data))
    (fun e => emit (LogEncryptError e) ;; ret None).

Definition decrypt (encrypted_data key : bytes) : Py (option bytes) :=
  try_except
    (decrypted_data <- or_raise InvalidToken (Fernet_decrypt L key encrypted_data) ;;
     emit LogDecrypted ;; ret (Some decrypted_data))
    (fun e => emit (LogDecryptError e) ;; ret None).

(** [Image.open(image_path)] *)
Definition image_open (image_path : str) : Py (Image L) :=
  data <- read_file image_path ;;
  or_raise CodecError (Image_open L data).

(** [lsb.hide(image_path, message)] *)
Definition hide (image_path message : str) : Py (Image L) :=
  emit (CallHide image_path message) ;;
  image <- image_open image_path ;;
  or_raise CodecError (lsb_hide L image message).

(** [lsb.reveal(image_path)] *)
Definition reveal (image_path : str) : Py (option str) :=
  emit (CallReveal image_path) ;;
  image <- image_open image_path ;;
  or_raise CodecError (lsb_reveal L image).

(** [image.save(output_path)] *)
Definition save (image : Image L) (output_path : str) : Py unit :=
  data <- or_raise ValueError (Image_save L image output_path) ;;
  open_wb output_path ;;
  write_file output_path data.

(** The metadata object, [{"filename": original_filename}]. *)
Definition metadata_of (original_filename : str) : JSON :=
  JObject [("filename", JString original_filename)].

Definition encode (image_path input_data output_path : str) (user_key : option str)
  : Py EncodeExit :=
  png <- ensure_png image_path ;;
  if negb png then ret ExitNotPng else
  key <- generate_key user_key ;;
  match key with
  | None => emit LogInvalidKey ;; ret ExitNoKey
  | Some key =>
  key_text <- decode_str key ;;
  emit (LogKeyForEncoding key_text) ;;
  is_file <- os_path_isfile input_data ;;
  payload <-
    (if is_file then
       try_except
         (file_data <- read_file input_data ;;
          ret (Some (basename input_data, file_data)))
         (fun e => emit (LogReadError e) ;; ret None)
     else ret (Some ("message.txt", str_encode input_data))) ;;
  match payload with
  | None => ret ExitReadError
  | Some (original_filename, file_data) =>
  encrypted_data <- encrypt file_data key ;;
  let metadata := str_encode (json_dumps L (metadata_of original_filename)) in
  image <- try_except (image <- image_open image_path ;; ret (Some image))
                      (fun e => emit (LogOpenError e) ;; ret None) ;;
  match image with
  | None => ret ExitOpenError
  | Some image =>
  let max_message_size := Image_width L image * Image_height L image * 3 / 8 in
  (* len(None) raises *)
  encrypted_data <- or_raise TypeError encrypted_data ;;
  let message_size := Z.of_nat (length encrypted_data) + Z.of_nat (length metadata) in
  if max_message_size <? message_size then
    emit (PrintTooLarge message_size max_message_size) ;; ret ExitTooLarge
  else
    emit (PrintMessageSize message_size) ;;
    try_except
      (let encoded_data := Base64.b64encode encrypted_data in
       message <- decode_str (encoded_data ++ separator ++ metadata) ;;
       secret_image <- hide image_path message ;;
       save secret_image output_path ;;
       emit PrintEncoded ;;
       key_text <- decode_str key ;;
       emit (PrintEncryptionKey key_text) ;;
       ret ExitEncoded)
      (fun e => emit (LogEncodeError e) ;; ret ExitEncodeError)
  end end end.

(** [encrypted_data, metadata = parts] *)
Definition unpack2 (parts : list bytes) : Py (bytes * bytes) :=
  match parts with
  | [encrypted_data; metadata] => ret (encrypted_data, metadata)
  | _ => raise ValueError
  end.

(** [metadata.get("filename", "decoded_file")]; only a dictionary has [get]. *)
Definition get_filename (metadata : JSON) : Py JSON :=
  match metadata with
  | JObject members => ret (dict_get members "filename" (JString "decoded_file"))
  | _ => raise AttributeError
  end.

(** [decrypted_data.decode()], where [decrypted_data] may be [None]. *)
Definition decode_data (decrypted_data : option bytes) : Py str :=
  match decrypted_data with
  | Some data => decode_str data
  | None => raise AttributeError
  end.

(** The name the file is opened under, [output_file or original_filename].
    A name that is not a string is not a path of the file system; opening
    it is taken to raise. *)
Definition output_name (output_file : option str) (original_filename : JSON) : Py str :=
  if truthy output_file then ret (default EmptyString output_file)
  else match original_filename with
       | JString name => ret name
       | _ => raise TypeError
       end.

Definition decode (image_path : str) (user_key : option str) (suppress_output : bool)
    (output_file : option str) (from_bruteforce : bool) : Py (option str) :=
  png <- ensure_png image_path ;;
  if negb png then ret None else
  key <- generate_key user_key ;;
  match key with
  | None => emit PrintInvalidKey ;; ret None
  | Some key =>
    try_except
      (encrypted_message <- reveal image_path ;;
       if truthy encrypted_message then
         let parts := split (str_encode (default EmptyString encrypted_message)) in
         if (length parts <? 2)%nat then
           emit PrintCorrupted ;; ret None
         else
           pair <- unpack2 parts ;;
           let encrypted_data := fst pair in
           let metadata := snd pair in
           encrypted_data <- or_raise BinasciiError (Base64.b64decode encrypted_data) ;;
           decrypted_data <- decrypt encrypted_data key ;;
           metadata <- or_raise JSONDecodeError (json_loads L metadata) ;;
           original_filename <- get_filename metadata ;;
           if is_str original_filename "message.txt" then
             (if negb suppress_output then
                message <- decode_data decrypted_data ;;
                emit (PrintDecodedMessage message)
              else ret tt) ;;
             message <- decode_data decrypted_data ;;
             ret (Some message)
           else
             output_filename <- output_name output_file original_filename ;;
             open_wb output_filename ;;
             data <- or_raise TypeError decrypted_data ;;
             write_file output_filename data ;;
             (if negb from_bruteforce then emit (PrintSaved output_filename) else ret tt) ;;
             ret (Some output_filename)
       else
         emit PrintNoHiddenMessage ;; ret None)
      (fun e => emit (LogDecodeError e) ;; ret None)
  end.

End Stegano.

(** ** The payload and the frame *)

(** The key a passphrase stands for. *)
Definition derive_key (passphrase : str) : bytes :=
  Base64.urlsafe_b64encode (SHA256.digest (str_encode passphrase)).

(** The payload [encode] reads from its input: a file if one is there,
    the text itself otherwise. *)
Definition payload_name (w : World) (input_data : str) : str :=
  match files w !! input_data with
  | Some _ => basename input_data
  | None => "message.txt"
  end.

Definition payload_data (w : World) (input_data : str) : bytes :=
  match files w !! input_data with
  | Some data => data
  | None => str_encode input_data
  end.

(** The frame [encode] hides. *)
Definition frame (L : Libs) (token : bytes) (name : str) : bytes :=
  Base64.b64encode token ++ separator ++ str_encode (json_dumps L (metadata_of name)).

(** What [decode] does once it holds the decrypted data and the name. *)
Definition deliver (decrypted_data : option bytes) (original_filename : JSON)
    (suppress_output : bool) (output_file : option str) (from_bruteforce : bool)
  : Py (option str) :=
  if is_str original_filename "message.txt" then
    (if negb suppress_output then
       message <- decode_data decrypted_data ;;
       emit (PrintDecodedMessage message)
     else ret tt) ;;
    message <- decode_data decrypted_data ;;
    ret (Some message)
  else
    output_filename <- output_name output_file original_filename ;;
    open_wb output_filename ;;
    data <- or_raise TypeError decrypted_data ;;
    write_file output_filename data ;;
    (if negb from_bruteforce then emit (PrintSaved output_filename) else ret tt) ;;
    ret (Some output_filename).

Definition decrypt_event (r : option bytes) : Event :=
  match r with
  | Some _ => LogDecrypted
  | None => LogDecryptError InvalidToken
  end.

Definition encrypt_event (r : option bytes) : Event :=
  match r with
  | Some _ => LogEncrypted
  | None => LogEncryptError ValueError
  end.

(** ** Contracts of the collaborators *)

(** A token decrypts, under the key that made it, to the data it was made
    from. *)
Definition FernetCorrect (L : Libs) : Prop :=
  forall key iv now data token,
    Fernet_encrypt L key iv now data = Some token ->
    Fernet_decrypt L key token = Some data.

(** A token is rejected under any other key. *)
Definition FernetAuthentic (L : Libs) : Prop :=
  forall key key' iv now data token,
    key <> key' ->
    Fernet_encrypt L key iv now data = Some token ->
    Fernet_decrypt L key' token = None.

(** An image saved as PNG opens again, and reveals the message that was
    hidden in it. *)
Definition LsbCorrect (L : Libs) : Prop :=
  forall cover message secret output_path saved,
    lsb_hide L cover message = Some secret ->
    endswith (lower output_path) ".png" = true ->
    Image_save L secret output_path = Some saved ->
    exists image, Image_open L saved = Some image
                  /\ lsb_reveal L image = Some (Some message).

(** The metadata of a name is written in printable ASCII and reads back. *)
Definition JsonCorrect (L : Libs) (name : str) : Prop :=
  json_loads L (str_encode (json_dumps L (metadata_of name))) = Some (metadata_of name)
  /\ forallb printable (str_encode (json_dumps L (metadata_of name))) = true.

(** ** A small instance of the collaborators

    Enough of each library to run the program on concrete inputs: a cipher
    whose token carries the key, an image that carries its message next to
    its size, and a JSON codec for the metadata object. *)
Module Sample.

Fixpoint bytes_eqb (a b : bytes) : bool :=
  match a, b with
  | [], [] => true
  | x :: a', y :: b' => Byte.eqb x y && bytes_eqb a' b'
  | _, _ => false
  end.

Definition Fernet_encrypt (key iv : bytes) (now : Z) (data : bytes) : option bytes :=
  if (length key =? 44)%nat && (length iv =? 16)%nat then Some (key ++ iv ++ data) else None.

Definition Fernet_decrypt (key token : bytes) : option bytes :=
  if (length key =? 44)%nat && (60 <=? length token)%nat && bytes_eqb (firstn 44 token) key
  then Some (skipn 60 token) else None.

Record Picture : Type := mkPicture { pwidth : Z; pheight : Z; carried : str }.

Definition Image_open (data : bytes) : option Picture :=
  match data with
  | w :: h :: rest => Some (mkPicture (byte_to_Z w) (byte_to_Z h) (string_of_list_byte rest))
  | _ => None
  end.

Definition Image_save (image : Picture) (output_path : str) : option bytes :=
  if endswith (lower output_path) ".png"
  then Some (byte_of_Z (pwidth image) :: byte_of_Z (pheight image) :: str_encode (carried image))
  else None.

(** The adapter writes the length of the message, a colon and the message,
    eight bits a character and three bits a pixel. *)
Definition lsb_hide (image : Picture) (message : str) : option Picture :=
  let n := String.length message in
  let chars := Z.of_nat (Decimal.nb_digits (Nat.to_uint n) + 1 + n) in
  if (n =? 0)%nat then None
  else if pwidth image * pheight image * 3 <? 8 * chars + (3 - 8 * chars mod 3) mod 3 then None
  else Some (mkPicture (pwidth image) (pheight image) message).

Definition lsb_reveal (image : Picture) : option (option str) :=
  if String.eqb (carried image) EmptyString then Some None else Some (Some (carried image)).

Definition quote : str := String (ascii_of_nat 34) EmptyString.

Definition json_dumps (value : JSON) : str :=
  match value with
  | JObject [(key, JString s)] => "{" +:+ quote +:+ key +:+ quote +:+ ": " +:+ quote +:+ s +:+ quote +:+ "}"
  | _ => "null"
  end.

Definition plain (c : ascii) : bool :=
  let n := nat_of_ascii c in
  (32 <=? n)%nat && (n <=? 126)%nat && negb (n =? 34)%nat && negb (n =? 92)%nat.

Fixpoint all_plain (s : str) : bool :=
  match s with
  | EmptyString => true
  | String c rest => plain c && all_plain rest
  end.

Definition json_loads (data : bytes) : option JSON :=
  let s := string_of_list_byte data in
  let n := String.length s in
  let name := substring 14 (n - 16) s in
  if (16 <=? n)%nat && String.eqb (substring 0 14 s) ("{" +:+ quote +:+ "filename" +:+ quote +:+ ": " +:+ quote)
     && String.eqb (substring (n - 2) 2 s) (quote +:+ "}") && all_plain name
  then Some (JObject [("filename", JString name)]) else None.

Definition libs : Libs :=
  mkLibs Fernet_encrypt Fernet_decrypt Picture Image_open pwidth pheight
         Image_save lsb_hide lsb_reveal json_dumps json_loads.

(** A cover image of 100 by 100 pixels, and a world that holds it. *)
Definition cover : bytes := [byte_of_Z 100; byte_of_Z 100].

Definition world (fs : gmap string bytes) : World :=
  mkWorld fs (fun n => byte_of_Z (Z.of_nat n)) 0 1700000000 [].

End Sample.

(** ** The wordlist *)
Module Wordlist.

Inductive Encoding : Type := Latin1 | Iso8859_1 | Cp1252 | Utf8.

Definition encodings : list Encoding := [Latin1; Iso8859_1; Cp1252; Utf8].

(** Text being read is a list of code points. Under latin-1 every byte is
    the code point of its value. *)
Definition latin1_decode (data : bytes) : list Z := map byte_to_Z data.

(** The lines of a text file opened with universal newlines: a line ends
    at a line feed, a carriage return or both, read as one line feed, and
    keeps it; the last line may lack one. [cur] is the line being read, in
    reverse. *)
Fixpoint text_lines_from (cur : list Z) (s : list Z) : list (list Z) :=
  match s with
  | [] => match cur with [] => [] | _ => [rev cur] end
  | c :: rest =>
      if c =? 10 then rev (10 :: cur) :: text_lines_from [] rest
      else if c =? 13 then
        match rest with
        | [] => [rev (10 :: cur)]
        | d :: rest' =>
            if d =? 10 then rev (10 :: cur) :: text_lines_from [] rest'
            else rev (10 :: cur) :: text_lines_from [] rest
        end
      else text_lines_from (c :: cur) rest
  end.

Definition text_lines (s : list Z) : list (list Z) := text_lines_from [] s.

(** [c.isspace()] *)
Definition is_space (c : Z) : bool :=
  ((9 <=? c) && (c <=? 13)) || ((28 <=? c) && (c <=? 32)) || (c =? 133) || (c =? 160)
  || (c =? 5760) || ((8192 <=? c) && (c <=? 8202)) || (c =? 8232) || (c =? 8233)
  || (c =? 8239) || (c =? 8287) || (c =? 12288).

Fixpoint lstrip (s : list Z) : list Z :=
  match s with
  | [] => []
  | c :: rest => if is_space c then lstrip rest else s
  end.

(** [line.strip()] *)
Definition strip (s : list Z) : list Z := rev (lstrip (rev (lstrip s))).

Definition utf8_encode_char (c : Z) : bytes :=
  if c <? 0x80 then [byte_of_Z c]
  else if c <? 0x800 then [byte_of_Z (0xC0 + c / 64); byte_of_Z (0x80 + c mod 64)]
  else if c <? 0x10000 then
    [byte_of_Z (0xE0 + c / 4096); byte_of_Z (0x80 + c / 64 mod 64); byte_of_Z (0x80 + c mod 64)]
  else
    [byte_of_Z (0xF0 + c / 262144); byte_of_Z (0x80 + c / 4096 mod 64);
     byte_of_Z (0x80 + c / 64 mod 64); byte_of_Z (0x80 + c mod 64)].

(** The string of a list of code points. *)
Definition str_of_codepoints (s : list Z) : str :=
  string_of_list_byte (flat_map utf8_encode_char s).

(** What iterating over [open(path, "r", encoding=...)] delivers: the lines
    read, and whether the reading then stopped on UnicodeDecodeError. *)
Record TextRun : Type := mkTextRun { lines_read : list (list Z); decode_error : bool }.

Section Reader.

(** The codecs that can fail, 'cp1252' and 'utf-8'. *)
Variable other_codecs : Encoding -> bytes -> TextRun.

Definition open_text (encoding : Encoding) (data : bytes) : TextRun :=
  match encoding with
  | Latin1 | Iso8859_1 => mkTextRun (text_lines (latin1_decode data)) false
  | _ => other_codecs encoding data
  end.

(** The generator [read_wordlist], run to its end on a file that holds
    [data]: the words it yields, and the encodings it opened the file with.
    After a UnicodeDecodeError the next encoding starts the file again. *)
Fixpoint read_wordlist_with (encodings : list Encoding) (data : bytes)
  : list str * list Encoding :=
  match encodings with
  | [] => ([], [])
  | encoding :: rest =>
      let run := open_text encoding data in
      let yielded := map (fun line => str_of_codepoints (strip line)) (lines_read run) in
      if decode_error run then
        (yielded ++ fst (read_wordlist_with rest data),
         encoding :: snd (read_wordlist_with rest data))
      else (yielded, [encoding])
  end.

Definition read_wordlist (data : bytes) : list str * list Encoding :=
  read_wordlist_with encodings data.

End Reader.

(** [sum(1 for _ in open(wordlist_path, "r", encoding="latin-1"))] *)
Definition total_words (data : bytes) : nat := length (text_lines (latin1_decode data)).

End Wordlist.

(** ** The brute-force search

    The search is a machine that the main thread and the workers of the
    pool move one step at a time; a run is the list of the steps taken. *)
Module Bruteforce.

(** A submitted call of [try_key]: waiting in the queue of the pool, taken
    off the queue by a worker, decoding, done, or cancelled in the queue. *)
Inductive Status : Type :=
  | Pending
  | Taken
  | Running
  | Done (result : option (str * str))
  | Cancelled.

Record Task : Type := mkTask { word : str; status : Status }.

Inductive Phase : Type :=
  | Scanning
  | Found (key message : str)
  | Exhausted
  | Interrupted.

Record Search : Type := mkSearch {
  world : World;
  words : list str;         (* what the generator has yet to yield *)
  futures : list Task;      (* the dictionary of the futures, oldest first *)
  stop_event : bool;
  phase : Phase;
  attempted : list str;     (* the words a decode was started for, newest first *)
  retired : list str        (* the words of the futures deleted, newest first *)
}.

Inductive Label : Type :=
  | Take (i : nat)          (* a worker takes future i off the queue *)
  | Enter (i : nat)         (* try_key starts: the check of stop_event *)
  | Finish (i : nat)        (* the decode ends and the future is done *)
  | Collect (i : nat)       (* the main thread handles the result of future i *)
  | Exhaust                 (* the main thread finds no future left *)
  | Interrupt               (* KeyboardInterrupt reaches the main thread *)
  | Shutdown.               (* executor.shutdown(wait=False, cancel_futures=True) *)

Definition is_started (t : Task) : bool :=
  match status t with
  | Running | Done _ => true
  | _ => false
  end.

Definition cancel (t : Task) : Task :=
  match status t with
  | Pending => mkTask (word t) Cancelled
  | _ => t
  end.

(** [next(words)] and the submission of the word, if one is left. *)
Definition refill (s : Search) : Search :=
  match words s with
  | [] => s
  | next :: rest =>
      mkSearch (world s) rest (futures s ++ [mkTask next Pending]) (stop_event s)
               (phase s) (attempted s) (retired s)
  end.

Section Search.

Context (L : Libs) (image_path : str).

(** The body of [try_key] after the check of [stop_event]. *)
Definition try_key (candidate : str) (w : World) : option (str * str) * World :=
  match decode L image_path (Some candidate) true None true w with
  | (Return (Some message), w') =>
      (if truthy (Some message) then Some (candidate, message) else None, w')
  | (_, w') => (None, w')
  end.

(** What the main thread does with a result. *)
Definition announce (key message : str) (w : World) : World :=
  if bool_decide (is_Some (files w !! message)) then
    snd (decode L image_path (Some key) false None false (record (PrintSuccess key) w))
  else record (PrintDecodedMessage message) (record (PrintSuccess key) w).

(** One step. A worker takes a future off the queue, enters [try_key],
    where it gives up if the stop event is set, and ends its decode. The main
    thread handles a done future: a result ends the search, anything else
    deletes the future and submits the next word. The pool is shut down, the
    queued futures cancelled, once the main thread has left the loop. *)
Definition step (l : Label) (s : Search) : option Search :=
  match l with
  | Take i =>
      match futures s !! i with
      | Some (mkTask candidate Pending) =>
          Some (mkSearch (world s) (words s) (<[i := mkTask candidate Taken]> (futures s))
                         (stop_event s) (phase s) (attempted s) (retired s))
      | _ => None
      end
  | Enter i =>
      match futures s !! i with
      | Some (mkTask candidate Taken) =>
          if stop_event s then
            Some (mkSearch (world s) (words s) (<[i := mkTask candidate (Done None)]> (futures s))
                           (stop_event s) (phase s) (attempted s) (retired s))
          else
            Some (mkSearch (world s) (words s) (<[i := mkTask candidate Running]> (futures s))
                           (stop_event s) (phase s) (candidate :: attempted s) (retired s))
      | _ => None
      end
  | Finish i =>
      match futures s !! i with
      | Some (mkTask candidate Running) =>
          let (result, w) := try_key candidate (world s) in
          Some (mkSearch w (words s) (<[i := mkTask candidate (Done result)]> (futures s))
                         (stop_event s) (phase s) (attempted s) (retired s))
      | _ => None
      end
  | Collect i =>
      match phase s, futures s !! i with
      | Scanning, Some (mkTask candidate (Done (Some (key, message)))) =>
          Some (mkSearch (announce key message (world s)) (words s) (futures s)
                         (stop_event s) (Found key message) (attempted s) (retired s))
      | Scanning, Some (mkTask candidate (Done None)) =>
          Some (refill (mkSearch (world s) (words s) (delete i (futures s)) (stop_event s)
                                 (phase s) (attempted s) (candidate :: retired s)))
      | _, _ => None
      end
  | Exhaust =>
      match phase s, futures s with
      | Scanning, [] =>
          Some (mkSearch (record PrintNoValidMessage (world s)) (words s) (futures s)
                         (stop_event s) Exhausted (attempted s) (retired s))
      | _, _ => None
      end
  | Interrupt =>
      match phase s with
      | Scanning =>
          Some (mkSearch (record PrintInterrupted (world s)) (words s) (futures s)
                         true Interrupted (attempted s) (retired s))
      | _ => None
      end
  | Shutdown =>
      match phase s with
      | Scanning => None
      | _ =>
          Some (mkSearch (world s) (words s) (map cancel (futures s)) (stop_event s)
                         (phase s) (attempted s) (retired s))
      end
  end.

Fixpoint run (labels : list Label) (s : Search) : option Search :=
  match labels with
  | [] => Some s
  | l :: rest =>
      match step l s with
      | Some s' => run rest s'
      | None => None
      end
  end.

End Search.

(** The search as [bruteforce] sets it up: the pool is made for
    [max_threads] workers, which raises unless the number is positive, and
    the first [max_threads] words are submitted. *)
Definition start (max_threads : Z) (wordlist : list str) (w : World) : option Search :=
  if max_threads <=? 0 then None
  else
    let n := Z.to_nat max_threads in
    Some (mkSearch w (drop n wordlist) (map (fun c => mkTask c Pending) (take n wordlist))
                   false Scanning [] []).

(** [bruteforce] up to the first submissions, on a wordlist file that holds
    [data]: it returns at once unless the image is named *.png, raises if a
    file is missing, and prints the number of lines before the search. The
    number of workers is the one given; when none is given the program takes
    at least two. The generator reads the wordlist as the search goes; its
    words are taken from the file as it is when the search starts. *)
Definition prepare (other_codecs : Wordlist.Encoding -> bytes -> Wordlist.TextRun)
    (image_path wordlist_path : str) (max_threads : Z) (w : World) : option Search :=
  if negb (endswith (lower image_path) ".png") then None
  else
    match files w !! image_path, files w !! wordlist_path with
    | Some _, Some data =>
        start max_threads (fst (Wordlist.read_wordlist other_codecs data))
              (record (PrintLoaded (Wordlist.total_words data)) w)
    | _, _ => None
    end.

(** The words of the futures whose decode was started. *)
Definition started (fs : list Task) : list str :=
  flat_map (fun t => if is_started t then [word t] else []) fs.

(** What every state of a search satisfies. *)
Record Inv (wordlist : list str) (s : Search) : Prop := mkInv {
  inv_words : wordlist ≡ₚ retired s ++ (word <$> futures s) ++ words s;
  inv_attempted : stop_event s = false -> attempted s ≡ₚ retired s ++ started (futures s);
  inv_refill : phase s = Scanning -> futures s = [] -> words s = [];
  inv_exhausted : phase s = Exhausted -> futures s = [] /\ words s = [];
  inv_flag : stop_event s = true <-> phase s = Interrupted
}.

End Bruteforce.

(** ** Concrete inputs *)

(** Worlds to run in: a cover image alone, and with a file next to it. *)
Definition sample_world : World := Sample.world {[ "cover.png"%string := Sample.cover ]}.

Definition sample_world_file (name : str) (data : bytes) : World :=
  Sample.world (<[ name := data ]> {[ "cover.png"%string := Sample.cover ]}).


Definition secret_world : World :=
  snd (encode Sample.libs "cover.png" "secret.bin" "out.png" (Some "k1"%string)
         (sample_world_file "secret.bin" [x01; x02; xff])).

Definition binary_world : World :=
  snd (encode Sample.libs "cover.png" "message.txt" "out.png" (Some "k1"%string)
         (sample_world_file "message.txt" [xff])).

(** An image whose hidden text holds no separator. *)
Definition odd_world : World :=
  Sample.world {[ "odd.png"%string := Sample.cover ++ list_byte_of_string "no separator here" ]}.

(** A cover of 16 by 16 pixels: 96 bytes by the check's count. *)
Definition small_world : World :=
  Sample.world {[ "small.png"%string := [byte_of_Z 16; byte_of_Z 16] ]}.

(** A wordlist of two lines next to the image that hides the text. *)
Definition search_world : World :=
  snd (encode Sample.libs "cover.png" "hello" "out.png" (Some "k1"%string)
         (sample_world_file "words.txt" [x61; x0a; x62; x0a])).

(** A wordlist whose first line is the passphrase. *)
Definition match_world : World :=
  snd (encode Sample.libs "cover.png" "hello" "out.png" (Some "k1"%string)
         (sample_world_file "words.txt" [x6b; x31; x0a; x7a; x7a; x7a; x0a])).

Definition no_codec (encoding : Wordlist.Encoding) (data : bytes) : Wordlist.TextRun :=
  Wordlist.mkTextRun [] true.

Definition idle : Bruteforce.Search :=
  Bruteforce.mkSearch search_world [] [] false Bruteforce.Scanning [] [].

Definition exhaust_start : Bruteforce.Search :=
  default idle (Bruteforce.prepare no_codec "out.png" "words.txt" 1 search_world).



(** ** What the further properties are stated with *)

(** The world in which [encode] opens the image: the key was made and
    logged, the payload read and encrypted. *)
Definition before_open (L : Libs) (key : bytes) (data : bytes) (wk : World) : World :=
  record (encrypt_event
            (Fernet_encrypt L key (map (urandom wk) (seq (drawn wk) 16)) (clock wk) data))
    (mkWorld (files wk) (urandom wk) (drawn wk + 16) (clock wk)
       (LogKeyForEncoding (string_of_list_byte key) :: trace wk)).




(** Images whose hidden text has a first part that is not base64, and a
    second part that is not JSON. *)
Definition bad_base64_world : World :=
  Sample.world {[ "bad.png"%string := Sample.cover ++ [x41; x00; x00; x00; x7b; x7d] ]}.

Definition bad_metadata_world : World :=
  Sample.world {[ "meta.png"%string
                  := Sample.cover ++ [x51; x55; x4a; x44; x00; x00; x00; x78] ]}.


(** The world after the text was hidden with no passphrase. *)
Definition random_world : World :=
  snd (encode Sample.libs "cover.png" "hello" "out.png" None sample_world).

(** States of the search for the passphrase among two words, with two
    workers: the match just collected, and what two late steps of the second
    worker make of it. *)
Definition match_start : Bruteforce.Search :=
  default idle (Bruteforce.prepare no_codec "out.png" "words.txt" 2 match_world).

Definition found_labels : list Bruteforce.Label :=
  [Bruteforce.Take 0; Bruteforce.Enter 0; Bruteforce.Finish 0;
   Bruteforce.Take 1; Bruteforce.Collect 0].

Definition found_state : Bruteforce.Search :=
  default idle (Bruteforce.run Sample.libs "out.png" found_labels match_start).

Definition late_labels : list Bruteforce.Label :=
  [Bruteforce.Shutdown; Bruteforce.Enter 1; Bruteforce.Finish 1].

Definition late_state : Bruteforce.Search :=
  default idle (Bruteforce.run Sample.libs "out.png" late_labels found_state).

(** A search that is interrupted while its one worker holds the first
    word. *)
Definition interrupt_labels : list Bruteforce.Label :=
  [Bruteforce.Take 0; Bruteforce.Interrupt; Bruteforce.Enter 0; Bruteforce.Shutdown].

Definition interrupted_state : Bruteforce.Search :=
  default idle
    (Bruteforce.run Sample.libs "out.png" [Bruteforce.Take 0; Bruteforce.Interrupt]
       exhaust_start).

Definition interrupted_end : Bruteforce.Search :=
  default idle (Bruteforce.run Sample.libs "out.png" interrupt_labels exhaust_start).




(** The world after the empty text was hidden under the passphrase k1. *)
Definition empty_text_world : World :=
  snd (encode Sample.libs "cover.png" EmptyString "out.png" (Some "k1"%string) sample_world).

(** * Proofs *)

Lemma byte_to_Z_range (b : byte) : 0 <= byte_to_Z b < 256.
Proof.
  unfold byte_to_Z. pose proof (Byte.to_N_bounded b). lia.
Qed.

Lemma byte_of_to_Z (b : byte) : byte_of_Z (byte_to_Z b) = b.
Proof.
  unfold byte_of_Z. pose proof (byte_to_Z_range b).
  rewrite Z.mod_small by lia. unfold byte_to_Z.
  rewrite N2Z.id, Byte.of_to_N. reflexivity.
Qed.

Lemma byte_to_of_Z (z : Z) : 0 <= z < 256 -> byte_to_Z (byte_of_Z z) = z.
Proof.
  intros Hz. unfold byte_of_Z. rewrite Z.mod_small by lia.
  destruct (Byte.of_N (Z.to_N z)) eqn:E.
  - apply Byte.to_of_N in E. unfold byte_to_Z. rewrite E. lia.
  - apply Byte.of_N_None_iff in E. lia.
Qed.

Ltac zdiv := Z.div_mod_to_equations; lia.

Lemma byte_of_Z_eq (z : Z) (b : byte) : z = byte_to_Z b -> byte_of_Z z = b.
Proof. intros ->. apply byte_of_to_Z. Qed.

(** Equal lists of bytes, element by element, each by arithmetic. *)
Ltac bytes_eq :=
  repeat (apply (f_equal2 cons); [apply byte_of_Z_eq; zdiv|]); reflexivity.



Module Base64Facts.
Import Base64.





Lemma std_alphabet_good : good_alphabet std_alphabet = true.
Proof. vm_compute. reflexivity. Qed.

Lemma url_alphabet_good : good_alphabet url_alphabet = true.
Proof. vm_compute. reflexivity. Qed.

Section Alphabet.

Variable alphabet : bytes.
Hypothesis Hgood : good_alphabet alphabet = true.

Lemma good_letter_at (i : Z) :
  0 <= i < 64 -> good_letter alphabet (Z.to_nat i) = true.
Proof using Hgood.
  intros Hi. unfold good_alphabet in Hgood.
  rewrite forallb_forall in Hgood. apply Hgood.
  apply in_seq. lia.
Qed.

Lemma letter_index (i : Z) :
  0 <= i < 64 -> index_from 0 alphabet (letter alphabet i) = i.
Proof using Hgood.
  intros Hi. pose proof (good_letter_at i Hi) as H. unfold good_letter in H.
  rewrite Z2Nat.id in H by lia.
  apply andb_prop in H as [H _]. apply andb_prop in H as [H _].
  apply Z.eqb_eq in H. exact H.
Qed.

Lemma letter_not_pad (i : Z) :
  0 <= i < 64 -> Byte.eqb (letter alphabet i) PAD = false.
Proof using Hgood.
  intros Hi. pose proof (good_letter_at i Hi) as H. unfold good_letter in H.
  rewrite Z2Nat.id in H by lia.
  apply andb_prop in H as [H _]. apply andb_prop in H as [_ H].
  apply negb_true_iff in H. exact H.
Qed.

Lemma letter_printable (i : Z) :
  0 <= i < 64 -> printable (letter alphabet i) = true.
Proof using Hgood.
  intros Hi. pose proof (good_letter_at i Hi) as H. unfold good_letter in H.
  rewrite Z2Nat.id in H by lia.
  apply andb_prop in H as [_ H]. exact H.
Qed.

(** What the decoder does with a letter, by position in the quad. *)
Lemma a2b_letter (q l p i : Z) (rest : bytes) :
  0 <= i < 64 ->
  a2b alphabet q l p (letter alphabet i :: rest) =
    if q =? 0 then a2b alphabet 1 i 0 rest
    else if q =? 1 then
      option_map (cons (byte_of_Z (l * 4 + i / 16))) (a2b alphabet 2 (i mod 16) 0 rest)
    else if q =? 2 then
      option_map (cons (byte_of_Z (l * 16 + i / 4))) (a2b alphabet 3 (i mod 4) 0 rest)
    else option_map (cons (byte_of_Z (l * 64 + i))) (a2b alphabet 0 0 0 rest).
Proof using Hgood.
  intros Hi. cbn [a2b]. rewrite letter_not_pad by lia.
  rewrite letter_index by lia.
  destruct (64 <=? i) eqn:E; [apply Z.leb_le in E; lia|]. reflexivity.
Qed.

Lemma list_ind3 {A} (P : list A -> Prop) :
  P [] -> (forall a, P [a]) -> (forall a b, P [a; b]) ->
  (forall a b c rest, P rest -> P (a :: b :: c :: rest)) ->
  forall l, P l.
Proof.
  intros H0 H1 H2 H3.
  assert (forall l, P l /\ (forall a, P (a :: l)) /\ (forall a b, P (a :: b :: l))) as H.
  { induction l as [|x l (IH0 & IH1 & IH2)]; [auto|].
    repeat split; auto. }
  intros l. apply H.
Qed.

Lemma decode_encode (s : bytes) : decode_with alphabet (encode_with alphabet s) = Some s.
Proof using Hgood.
  unfold decode_with. induction s as [|a|a b|a b c rest IH] using list_ind3.
  - reflexivity.
  - pose proof (byte_to_Z_range a) as Ha. cbn [encode_with].
    rewrite a2b_letter by zdiv. cbn [Z.eqb].
    rewrite a2b_letter by zdiv.
    change (1 =? 0) with false. change (1 =? 1) with true. cbv iota.
    replace (a2b alphabet 2 _ 0 [PAD; PAD]) with (Some (@nil byte)) by reflexivity.
    cbn [option_map]. f_equal. bytes_eq.
  - pose proof (byte_to_Z_range a) as Ha. pose proof (byte_to_Z_range b) as Hb.
    cbn [encode_with].
    rewrite a2b_letter by zdiv. cbn [Z.eqb].
    rewrite a2b_letter by zdiv.
    change (1 =? 0) with false. change (1 =? 1) with true. cbv iota.
    rewrite a2b_letter by zdiv.
    change (2 =? 0) with false. change (2 =? 1) with false. change (2 =? 2) with true. cbv iota.
    replace (a2b alphabet 3 _ 0 [PAD]) with (Some (@nil byte)) by reflexivity.
    cbn [option_map]. f_equal. bytes_eq.
  - pose proof (byte_to_Z_range a) as Ha. pose proof (byte_to_Z_range b) as Hb.
    pose proof (byte_to_Z_range c) as Hc.
    cbn [encode_with].
    rewrite a2b_letter by zdiv. cbn [Z.eqb].
    rewrite a2b_letter by zdiv.
    change (1 =? 0) with false. change (1 =? 1) with true. cbv iota.
    rewrite a2b_letter by zdiv.
    change (2 =? 0) with false. change (2 =? 1) with false. change (2 =? 2) with true. cbv iota.
    rewrite a2b_letter by zdiv.
    change (3 =? 0) with false. change (3 =? 1) with false. change (3 =? 2) with false. cbv iota.
    rewrite IH. cbn [option_map]. f_equal. bytes_eq.
Qed.

Lemma encode_printable (s : bytes) : forallb printable (encode_with alphabet s) = true.
Proof using Hgood.
  assert (Hpad : printable PAD = true) by reflexivity.
  induction s as [|a|a b|a b c rest IH] using list_ind3; cbn [encode_with forallb].
  - reflexivity.
  - pose proof (byte_to_Z_range a).
    rewrite !letter_printable by zdiv. rewrite Hpad. reflexivity.
  - pose proof (byte_to_Z_range a). pose proof (byte_to_Z_range b).
    rewrite !letter_printable by zdiv. rewrite Hpad. reflexivity.
  - pose proof (byte_to_Z_range a). pose proof (byte_to_Z_range b).
    pose proof (byte_to_Z_range c).
    rewrite !letter_printable by zdiv. rewrite IH. reflexivity.
Qed.

Lemma encode_length (s : bytes) :
  length (encode_with alphabet s) = (4 * ((length s + 2) / 3))%nat.
Proof.
  induction s as [|a|a b|a b c rest IH] using list_ind3; cbn [encode_with length].
  - reflexivity.
  - reflexivity.
  - reflexivity.
  - rewrite IH.
    replace (S (S (S (length rest))) + 2)%nat with (1 * 3 + (length rest + 2))%nat by lia.
    rewrite Nat.div_add_l by lia. lia.
Qed.

Lemma encode_injective (s t : bytes) :
  encode_with alphabet s = encode_with alphabet t -> s = t.
Proof using Hgood.
  intros H. apply (f_equal (decode_with alphabet)) in H.
  rewrite !decode_encode in H. congruence.
Qed.

End Alphabet.
End Base64Facts.

(** ** Facts on strings and frames *)

Lemma printable_not_nul (c : byte) : printable c = true -> c <> x00.
Proof. intros H ->. discriminate H. Qed.

Lemma printable_ascii (c : byte) : printable c = true -> byte_to_Z c < 0x80.
Proof. unfold printable. intros H. apply andb_prop in H as [_ H]. apply Z.leb_le in H. lia. Qed.

Lemma utf8_valid_ascii (s t : bytes) :
  Forall (fun c => byte_to_Z c < 0x80) s -> utf8_valid (s ++ t) = utf8_valid t.
Proof.
  induction 1 as [|c s Hc _ IH]; [reflexivity|].
  cbn [app utf8_valid]. destruct (byte_to_Z c <? 128) eqn:E; [exact IH|].
  apply Z.ltb_ge in E. lia.
Qed.

Lemma split_from_nil (cur : bytes) : split_from cur [] = [rev cur].
Proof. reflexivity. Qed.

Lemma split_from_separator (cur rest : bytes) :
  split_from cur (separator ++ rest) = rev cur :: split_from [] rest.
Proof. reflexivity. Qed.

Lemma split_from_other (cur : bytes) (c : byte) (rest : bytes) :
  firstn 3 (c :: rest) <> separator ->
  split_from cur (c :: rest) = split_from (c :: cur) rest.
Proof.
  intros H. destruct c; try reflexivity.
  destruct rest as [|d rest]; [reflexivity|]. destruct d; try reflexivity.
  destruct rest as [|e rest]; [reflexivity|]. destruct e; try reflexivity.
  exfalso. apply H. reflexivity.
Qed.

Lemma split_from_not_nil (cur s : bytes) : split_from cur s <> [].
Proof.
  revert cur. induction s as [|c s IH]; intros cur; [discriminate|].
  destruct (decide (firstn 3 (c :: s) = separator)) as [E|E].
  - destruct s as [|d [|e s]]; try discriminate E. injection E as -> -> ->. discriminate.
  - rewrite split_from_other by exact E. apply IH.
Qed.

(** A piece that holds no zero byte is not split. *)
Lemma split_from_no_nul (cur s : bytes) :
  Forall (fun c => c <> x00) s -> split_from cur s = [rev cur ++ s].
Proof.
  intros H. revert cur. induction H as [|c s Hc _ IH]; intros cur.
  - cbn. rewrite app_nil_r. reflexivity.
  - rewrite split_from_other.
    + rewrite IH. cbn [rev]. rewrite <- app_assoc. reflexivity.
    + intros E. injection E as E _. contradiction.
Qed.

(** The frame [encoded ++ separator ++ metadata] splits into its two parts
    when neither holds a zero byte. *)
Lemma split_frame (encoded metadata : bytes) :
  Forall (fun c => c <> x00) encoded -> Forall (fun c => c <> x00) metadata ->
  split (encoded ++ separator ++ metadata) = [encoded; metadata].
Proof.
  intros He Hm. unfold split.
  enough (forall cur, split_from cur (encoded ++ separator ++ metadata)
                      = [rev cur ++ encoded; metadata]) as H by apply (H []).
  induction He as [|c s Hc _ IH]; intros cur.
  - cbn [app]. rewrite split_from_separator, split_from_no_nul by exact Hm.
    rewrite app_nil_r. reflexivity.
  - cbn [app]. rewrite split_from_other.
    + rewrite IH. cbn [rev]. rewrite <- app_assoc. reflexivity.
    + intros E. injection E as E _. contradiction.
Qed.



Lemma split_from_single (cur s p : bytes) :
  split_from cur s = [p] ->
  p = rev cur ++ s /\ forall i, ~ occurs_at s i.
Proof.
  revert cur p. induction s as [|c s IH]; intros cur p H.
  - cbn in H. injection H as <-. rewrite app_nil_r. split; [reflexivity|].
    intros i. unfold occurs_at. rewrite skipn_nil. discriminate.
  - destruct (decide (firstn 3 (c :: s) = separator)) as [E|E].
    + destruct s as [|d [|e s]]; try discriminate E. injection E as -> -> ->.
      change (x00 :: x00 :: x00 :: s) with (separator ++ s) in H.
      rewrite split_from_separator in H. injection H as _ H.
      exfalso. exact (split_from_not_nil _ _ H).
    + rewrite split_from_other in H by exact E.
      apply IH in H as [-> Hno]. split.
      * cbn [rev]. rewrite <- app_assoc. reflexivity.
      * intros [|i]; [exact E | apply Hno].
Qed.

(** Two parts: the first is what precedes the first occurrence of the
    separator, the second what follows it, and the separator occurs nowhere
    else. *)
Lemma split_from_two (cur s p1 p2 : bytes) :
  split_from cur s = [p1; p2] ->
  exists q, p1 = rev cur ++ q /\ s = q ++ separator ++ p2
            /\ (forall i, (i < length q)%nat -> ~ occurs_at s i)
            /\ (forall i, ~ occurs_at p2 i).
Proof.
  revert cur p1 p2. induction s as [|c s IH]; intros cur p1 p2 H.
  - discriminate H.
  - destruct (decide (firstn 3 (c :: s) = separator)) as [E|E].
    + destruct s as [|d [|e s]]; try discriminate E. injection E as -> -> ->.
      change (x00 :: x00 :: x00 :: s) with (separator ++ s) in H.
      rewrite split_from_separator in H. injection H as <- H.
      apply split_from_single in H as [-> Hno].
      exists []. cbn [length rev app]. rewrite app_nil_r.
      repeat split; [lia | exact Hno].
    + rewrite split_from_other in H by exact E.
      apply IH in H as (q & -> & -> & Hbefore & Hafter).
      exists (c :: q). cbn [rev]. rewrite <- app_assoc.
      repeat split; [|exact Hafter].
      intros [|i] Hi; [exact E|]. apply Hbefore. cbn in Hi. lia.
Qed.

(** ** Running the program *)

Arguments SHA256.digest : simpl never.
Arguments Base64.encode_with : simpl never.
Arguments Base64.decode_with : simpl never.
Arguments Base64.b64decode : simpl never.
Arguments Base64.b64encode : simpl never.
Arguments Base64.urlsafe_b64encode : simpl never.
Arguments split : simpl never.
Arguments utf8_valid : simpl never.
Arguments endswith : simpl never.
Arguments lower : simpl never.
Arguments string_of_list_byte : simpl never.
Arguments list_byte_of_string : simpl never.
Arguments str_encode : simpl never.
Arguments bytes_decode : simpl never.
Arguments basename : simpl never.



Lemma truthy_Some (s : str) : s <> EmptyString -> truthy (Some s) = true.
Proof.
  intros H. cbn. destruct (String.eqb s EmptyString) eqn:E; [|reflexivity].
  apply String.eqb_eq in E. contradiction.
Qed.

Lemma generate_key_passphrase (K : str) (w : World) :
  K <> EmptyString ->
  generate_key (Some K) w = (Return (Some (derive_key K)), record LogKeyFromUser w).
Proof.
  intros H. unfold generate_key, try_except, bind. rewrite truthy_Some by exact H.
  reflexivity.
Qed.


Lemma bind_inv {A B} (m : Py A) (k : A -> Py B) (w w2 : World) (b : B) :
  bind m k w = (Return b, w2) ->
  exists a w1, m w = (Return a, w1) /\ k a w1 = (Return b, w2).
Proof.
  unfold bind. destruct (m w) as [[e|a] w1]; [discriminate|]. eauto.
Qed.

Lemma bind_eq {A B} (m : Py A) (k : A -> Py B) (w w1 : World) (a : A) :
  m w = (Return a, w1) -> bind m k w = k a w1.
Proof. unfold bind. intros ->. reflexivity. Qed.

Lemma bind_raise {A B} (m : Py A) (k : A -> Py B) (w w1 : World) (e : Exn) :
  m w = (Raise e, w1) -> bind m k w = (Raise e, w1).
Proof. unfold bind. intros ->. reflexivity. Qed.

Lemma or_raise_inv {A} (e : Exn) (o : option A) (w w1 : World) (a : A) :
  or_raise e o w = (Return a, w1) -> o = Some a /\ w1 = w.
Proof. destruct o; cbn; intros H; inversion H; auto. Qed.

Lemma ensure_png_run (image_path : str) (w : World) :
  ensure_png image_path w =
    if endswith (lower image_path) ".png" then (Return true, w)
    else (Return false, record PrintNotPng w).
Proof. unfold ensure_png. destruct (endswith _ _); reflexivity. Qed.







Lemma encrypt_inv (L : Libs) (data key : bytes) (w w1 : World) (r : option bytes) :
  encrypt L data key w = (Return r, w1) ->
  files w1 = files w /\
  forall token, r = Some token ->
    exists iv now, Fernet_encrypt L key iv now data = Some token.
Proof.
  unfold encrypt, try_except, bind, os_urandom, time_time. cbn.
  destruct (Fernet_encrypt L key _ (clock w) data) as [token|] eqn:E; cbn;
    intros H; inversion H; subst; split; try reflexivity.
  - intros t Ht. injection Ht as <-. eauto.
  - discriminate.
Qed.

Lemma image_open_inv (L : Libs) (image_path : str) (w w1 : World) (image : Image L) :
  image_open L image_path w = (Return image, w1) ->
  w1 = w /\ exists data, files w !! image_path = Some data /\ Image_open L data = Some image.
Proof.
  unfold image_open, bind, read_file.
  destruct (files w !! image_path) as [data|]; [|discriminate].
  intros H. apply or_raise_inv in H as [H ->]. eauto.
Qed.

Lemma generate_key_runs (user_key : option str) (w : World) :
  exists key event wk,
    generate_key user_key w = (Return (Some key), record event wk)
    /\ files wk = files w /\ trace wk = trace w.
Proof.
  unfold generate_key, try_except, bind. destruct (truthy user_key).
  - exists (Base64.urlsafe_b64encode (SHA256.digest (str_encode (default EmptyString user_key)))),
      LogKeyFromUser, w. repeat split.
  - eexists _, LogRandomKey, _. cbn. repeat split.
Qed.

Lemma generate_key_files (user_key : option str) (w wk : World) (key : option bytes) :
  generate_key user_key w = (Return key, wk) -> files wk = files w.
Proof.
  destruct (generate_key_runs user_key w) as (k & event & wk' & Hrun & Hfiles & _).
  rewrite Hrun. intros H. injection H as _ <-. exact Hfiles.
Qed.

Lemma encode_encoded (L : Libs) (image_path input_data output_path : str)
    (user_key : option str) (w w1 : World) :
  encode L image_path input_data output_path user_key w = (Return ExitEncoded, w1) ->
  exists key wk iv now token cover secret saved,
    generate_key user_key w = (Return (Some key), wk)
    /\ Fernet_encrypt L key iv now (payload_data w input_data) = Some token
    /\ lsb_hide L cover (string_of_list_byte (frame L token (payload_name w input_data)))
       = Some secret
    /\ Image_save L secret output_path = Some saved
    /\ files w1 = <[output_path := saved]> (files w).
Proof.
  intros H. unfold encode in H.
  apply bind_inv in H as (png & wa & Hpng & H).
  rewrite ensure_png_run in Hpng.
  destruct png; [|destruct (endswith _ _); discriminate].
  assert (wa = w) as -> by (destruct (endswith _ _); inversion Hpng; reflexivity).
  clear Hpng. cbn [negb] in H.
  apply bind_inv in H as (key & wb & Hkey & H).
  pose proof (generate_key_files _ _ _ _ Hkey) as Fa.
  destruct key as [key|]; [|apply bind_inv in H as (? & ? & _ & H); discriminate H].
  apply bind_inv in H as (key_text & wc & Htext & H).
  apply or_raise_inv in Htext as [_ ->].
  apply bind_inv in H as ([] & wd & Hemit & H). injection Hemit as <-.
  apply bind_inv in H as (is_file & we & Hfile & H). injection Hfile as <- <-.
  apply bind_inv in H as (payload & wf & Hpayload & H).
  assert (payload = Some (payload_name w input_data, payload_data w input_data)
          /\ files wf = files w) as [-> Ff].
  { unfold payload_name, payload_data. cbn [files record] in Hpayload. rewrite Fa in Hpayload.
    destruct (files w !! input_data) as [data|] eqn:E.
    - rewrite bool_decide_eq_true_2 in Hpayload by eauto.
      unfold try_except, bind, read_file in Hpayload. cbn [files record] in Hpayload.
      rewrite Fa, E in Hpayload. injection Hpayload as <- <-. split; [reflexivity|exact Fa].
    - rewrite bool_decide_eq_false_2 in Hpayload by (intros [? ?]; discriminate).
      injection Hpayload as <- <-. split; [reflexivity|exact Fa]. }
  cbv beta iota in H.
  apply bind_inv in H as (encrypted & wg & Henc & H).
  apply encrypt_inv in Henc as [Fg Henc].
  apply bind_inv in H as (image & wh & Himg & H).
  assert (files wh = files wg) as Fh.
  { unfold try_except in Himg.
    destruct (bind (image_open L image_path) _ wg) as [[e|a] wx] eqn:E.
    - injection Himg as _ <-. unfold bind in E.
      destruct (image_open L image_path wg) as [[e'|a'] wy] eqn:E'; [|discriminate].
      injection E as _ <-. unfold image_open, bind, read_file in E'.
      destruct (files wg !! image_path); [|injection E' as _ <-; reflexivity].
      destruct (Image_open L l); cbn in E'; [discriminate|]. injection E' as _ <-. reflexivity.
    - injection Himg as _ <-. apply bind_inv in E as (i & wy & E & E2).
      apply image_open_inv in E as [-> _]. injection E2 as _ <-. reflexivity. }
  destruct image as [image|]; [|discriminate H].
  apply bind_inv in H as (token & wi & Htok & H).
  apply or_raise_inv in Htok as [-> ->].
  destruct (Henc token eq_refl) as (iv & now & Hfernet).
  destruct (_ <? _); [apply bind_inv in H as (? & ? & _ & H); discriminate H|].
  apply bind_inv in H as ([] & wj & Hemit & H). injection Hemit as <-.
  unfold try_except in H.
  match type of H with
  | match ?body ?w with _ => _ end = _ => destruct (body w) as [[e|exit] wk] eqn:Hbody
  end; [discriminate H|].
  injection H as -> ->.
  apply bind_inv in Hbody as (message & wl & Hmsg & Hbody).
  apply or_raise_inv in Hmsg as [Hmsg ->].
  unfold bytes_decode in Hmsg. destruct (utf8_valid _); [|discriminate]. injection Hmsg as <-.
  apply bind_inv in Hbody as (secret & wm & Hhide & Hbody).
  unfold hide in Hhide.
  apply bind_inv in Hhide as ([] & wn & Hemit & Hhide). injection Hemit as <-.
  apply bind_inv in Hhide as (cover & wo & Hopen & Hhide).
  apply image_open_inv in Hopen as [-> _].
  apply or_raise_inv in Hhide as [Hhide ->].
  apply bind_inv in Hbody as ([] & wp & Hsave & Hbody).
  unfold save in Hsave.
  apply bind_inv in Hsave as (saved & wq & Hsaved & Hsave).
  apply or_raise_inv in Hsaved as [Hsaved ->].
  apply bind_inv in Hsave as ([] & wr & Hopen & Hsave).
  unfold open_wb in Hopen. destruct (String.eqb output_path EmptyString); [discriminate|].
  injection Hopen as <-. injection Hsave as <-.
  apply bind_inv in Hbody as ([] & ws & Hemit & Hbody). injection Hemit as <-.
  apply bind_inv in Hbody as (key_text2 & wt & Htext & Hbody).
  apply or_raise_inv in Htext as [_ ->].
  apply bind_inv in Hbody as ([] & wu & Hemit & Hbody). injection Hemit as <-.
  injection Hbody as <-.
  exists key, wb, iv, now, token, cover, secret, saved.
  split; [exact Hkey|]. split; [exact Hfernet|]. split; [exact Hhide|].
  split; [exact Hsaved|].
  cbn [files record store]. rewrite insert_insert_eq, Fh, Fg, Ff. reflexivity.
Qed.

Lemma try_bind {A B} (m : Py A) (k : A -> Py B) (h : Exn -> Py B) (w w1 : World) (a : A) :
  m w = (Return a, w1) -> try_except (bind m k) h w = try_except (k a) h w1.
Proof. unfold try_except, bind. intros ->. reflexivity. Qed.

Lemma try_bind_raise {A B} (m : Py A) (k : A -> Py B) (h : Exn -> Py B) (w w1 : World) (e : Exn) :
  m w = (Raise e, w1) -> try_except (bind m k) h w = h e w1.
Proof. unfold try_except, bind. intros ->. reflexivity. Qed.

Lemma bind_emit {B} (e : Event) (k : unit -> Py B) (w : World) :
  bind (emit e) k w = k tt (record e w).
Proof. reflexivity. Qed.

Lemma bind_ret {A B} (a : A) (k : A -> Py B) (w : World) : bind (ret a) k w = k a w.
Proof. reflexivity. Qed.

Lemma try_bind_ret {A B} (a : A) (k : A -> Py B) (h : Exn -> Py B) (w : World) :
  try_except (bind (ret a) k) h w = try_except (k a) h w.
Proof. reflexivity. Qed.

Lemma try_bind_emit {B} (e : Event) (k : unit -> Py B) (h : Exn -> Py B) (w : World) :
  try_except (bind (emit e) k) h w = try_except (k tt) h (record e w).
Proof. reflexivity. Qed.

Lemma string_of_list_byte_nonempty (l : bytes) :
  l <> [] -> string_of_list_byte l <> EmptyString.
Proof.
  intros Hl E. apply Hl. rewrite <- (list_byte_of_string_of_list_byte l), E. reflexivity.
Qed.

Lemma forallb_printable_no_nul (s : bytes) :
  forallb printable s = true -> Forall (fun c => c <> x00) s.
Proof.
  rewrite forallb_forall, List.Forall_forall. intros H c Hc.
  apply printable_not_nul, H, Hc.
Qed.

Lemma forallb_printable_ascii (s : bytes) :
  forallb printable s = true -> Forall (fun c => byte_to_Z c < 0x80) s.
Proof.
  rewrite forallb_forall, List.Forall_forall. intros H c Hc.
  apply printable_ascii, H, Hc.
Qed.

Lemma b64encode_printable (s : bytes) : forallb printable (Base64.b64encode s) = true.
Proof. apply Base64Facts.encode_printable, Base64Facts.std_alphabet_good. Qed.

Lemma b64decode_b64encode (s : bytes) : Base64.b64decode (Base64.b64encode s) = Some s.
Proof. apply Base64Facts.decode_encode, Base64Facts.std_alphabet_good. Qed.

Lemma split_the_frame (L : Libs) (token : bytes) (name : str) :
  JsonCorrect L name ->
  split (frame L token name)
  = [Base64.b64encode token; str_encode (json_dumps L (metadata_of name))].
Proof.
  intros [_ Hp]. apply split_frame.
  - apply forallb_printable_no_nul, b64encode_printable.
  - apply forallb_printable_no_nul, Hp.
Qed.

Lemma frame_valid (L : Libs) (token : bytes) (name : str) :
  JsonCorrect L name -> utf8_valid (frame L token name) = true.
Proof.
  intros [_ Hp]. unfold frame.
  rewrite utf8_valid_ascii by apply forallb_printable_ascii, b64encode_printable.
  rewrite (utf8_valid_ascii separator) by (repeat constructor; reflexivity).
  rewrite <- (app_nil_r (str_encode _)).
  rewrite utf8_valid_ascii by apply forallb_printable_ascii, Hp. reflexivity.
Qed.

Lemma decrypt_run (L : Libs) (token key : bytes) (w : World) :
  decrypt L token key w
  = (Return (Fernet_decrypt L key token), record (decrypt_event (Fernet_decrypt L key token)) w).
Proof.
  unfold decrypt, try_except, bind. destruct (Fernet_decrypt L key token); reflexivity.
Qed.

Lemma image_open_run (L : Libs) (image_path : str) (w : World) (data : bytes) (image : Image L) :
  files w !! image_path = Some data -> Image_open L data = Some image ->
  image_open L image_path w = (Return image, w).
Proof.
  intros Hfile Hopen. unfold image_open, bind, read_file. rewrite Hfile, Hopen. reflexivity.
Qed.

Lemma reveal_run (L : Libs) (image_path : str) (w : World) (data : bytes) (image : Image L)
    (r : option str) :
  files w !! image_path = Some data -> Image_open L data = Some image ->
  lsb_reveal L image = Some r ->
  reveal L image_path w = (Return r, record (CallReveal image_path) w).
Proof.
  intros Hfile Hopen Hreveal. unfold reveal. rewrite bind_emit.
  rewrite (bind_eq _ _ _ _ image) by (apply image_open_run with data; assumption).
  rewrite Hreveal. reflexivity.
Qed.

(** [decode] on an image that reveals a frame. *)
Lemma decode_frame (L : Libs) (image_path : str) (user_key : option str)
    (suppress_output : bool) (output_file : option str) (from_bruteforce : bool)
    (w wk : World) (key saved : bytes) (image : Image L) (token : bytes) (name : str) :
  endswith (lower image_path) ".png" = true ->
  generate_key user_key w = (Return (Some key), wk) ->
  files w !! image_path = Some saved ->
  Image_open L saved = Some image ->
  lsb_reveal L image = Some (Some (string_of_list_byte (frame L token name))) ->
  JsonCorrect L name ->
  decode L image_path user_key suppress_output output_file from_bruteforce w
  = try_except
      (deliver (Fernet_decrypt L key token) (JString name)
               suppress_output output_file from_bruteforce)
      (fun e => emit (LogDecodeError e) ;; ret None)
      (record (decrypt_event (Fernet_decrypt L key token))
         (record (CallReveal image_path) wk)).
Proof.
  intros Hpng Hkey Hfile Hopen Hreveal Hjson. unfold decode.
  rewrite (bind_eq _ _ w w true) by (rewrite ensure_png_run, Hpng; reflexivity).
  cbn [negb].
  rewrite (bind_eq _ _ _ _ _ Hkey).
  assert (files wk !! image_path = Some saved) as Hfile'
    by (rewrite (generate_key_files _ _ _ _ Hkey); exact Hfile).
  rewrite (try_bind _ _ _ _ _ _
             (reveal_run L image_path wk saved image _ Hfile' Hopen Hreveal)).
  rewrite truthy_Some.
  2:{ apply string_of_list_byte_nonempty. unfold frame.
      intros E. apply app_eq_nil in E as [_ E]. discriminate E. }
  cbn [default from_option id]. unfold str_encode at 1 2.
  rewrite !list_byte_of_string_of_list_byte.
  rewrite split_the_frame by exact Hjson.
  cbn [length Nat.ltb Nat.leb]. cbn [unpack2].
  unfold Nat.ltb. cbn [Nat.leb].
  rewrite try_bind_ret. cbn [fst snd].
  rewrite b64decode_b64encode. cbn [or_raise].
  rewrite try_bind_ret.
  rewrite (try_bind _ _ _ _ _ _ (decrypt_run _ _ _ _)).
  destruct Hjson as [Hjson _]. rewrite Hjson. cbn [or_raise].
  rewrite try_bind_ret.
  cbn [metadata_of get_filename].
  rewrite try_bind_ret.
  reflexivity.
Qed.

Lemma is_str_JString (s t : str) : is_str (JString s) t = String.eqb s t.
Proof. reflexivity. Qed.

Lemma decode_data_Some (data : bytes) (w : World) :
  decode_data (Some data) w
  = (if utf8_valid data then Return (string_of_list_byte data) else Raise UnicodeDecodeError, w).
Proof.
  unfold decode_data, decode_str, bytes_decode. destruct (utf8_valid data); reflexivity.
Qed.

(** Delivery of a text: returned when it is well-formed, no file touched. *)
Lemma deliver_text (data : bytes) (suppress_output : bool) (output_file : option str)
    (from_bruteforce : bool) (w : World) :
  exists w2,
    try_except
      (deliver (Some data) (JString "message.txt") suppress_output output_file from_bruteforce)
      (fun e => emit (LogDecodeError e) ;; ret None) w
    = (Return (if utf8_valid data then Some (string_of_list_byte data) else None), w2)
    /\ files w2 = files w.
Proof.
  pose proof (decode_data_Some data) as Hd.
  unfold deliver. cbn [is_str String.eqb Ascii.eqb Bool.eqb]. cbv iota.
  destruct (utf8_valid data); destruct suppress_output; cbn [negb];
    unfold try_except, bind; rewrite ?Hd; cbn -[decode_data]; rewrite ?Hd; eauto.
Qed.


(** Delivery without data: nothing is returned. *)
Lemma deliver_nothing (original_filename : JSON) (suppress_output : bool)
    (output_file : option str) (from_bruteforce : bool) (w : World) :
  exists e w2,
    try_except
      (deliver None original_filename suppress_output output_file from_bruteforce)
      (fun e => emit (LogDecodeError e) ;; ret None) w
    = (Return None, record (LogDecodeError e) w2)
    /\ trace w2 = trace w.
Proof.
  unfold deliver. destruct (is_str original_filename "message.txt").
  - exists AttributeError, w. destruct suppress_output; split; reflexivity.
  - unfold try_except, bind.
    destruct (output_name output_file original_filename w) as [[e|p] wa] eqn:E.
    + exists e, wa. split; [reflexivity|].
      unfold output_name in E. destruct (truthy output_file); [discriminate|].
      destruct original_filename; inversion E; reflexivity.
    + assert (wa = w) as ->.
      { unfold output_name in E. destruct (truthy output_file); [inversion E; reflexivity|].
        destruct original_filename; inversion E; reflexivity. }
      unfold open_wb. destruct (String.eqb p EmptyString).
      * exists FileNotFoundError, w. split; reflexivity.
      * exists TypeError, (store p [] w). split; reflexivity.
Qed.

(** Delivery of a file without data: the file is opened, and left empty. *)
Lemma deliver_nothing_file (name : str) (suppress_output from_bruteforce : bool) (w : World) :
  name <> "message.txt"%string -> name <> EmptyString ->
  try_except
    (deliver None (JString name) suppress_output None from_bruteforce)
    (fun e => emit (LogDecodeError e) ;; ret None) w
  = (Return None, record (LogDecodeError TypeError) (store name [] w)).
Proof.
  intros Hname Hne. unfold deliver. rewrite is_str_JString.
  destruct (String.eqb name "message.txt") eqn:E; [apply String.eqb_eq in E; contradiction|].
  unfold try_except, bind, output_name, open_wb. cbn [truthy ret].
  destruct (String.eqb name EmptyString) eqn:E2; [apply String.eqb_eq in E2; contradiction|].
  reflexivity.
Qed.

(** What a successful [encode] leaves behind: the output file opens as an
    image that reveals the frame of the payload. *)
Lemma encode_leaves_frame (L : Libs) (image_path input_data output_path : str)
    (user_key : option str) (w w1 : World) :
  LsbCorrect L ->
  endswith (lower output_path) ".png" = true ->
  encode L image_path input_data output_path user_key w = (Return ExitEncoded, w1) ->
  exists key wk iv now token saved image,
    generate_key user_key w = (Return (Some key), wk)
    /\ Fernet_encrypt L key iv now (payload_data w input_data) = Some token
    /\ files w1 !! output_path = Some saved
    /\ Image_open L saved = Some image
    /\ lsb_reveal L image
       = Some (Some (string_of_list_byte (frame L token (payload_name w input_data)))).
Proof.
  intros Hlsb Hpng H.
  apply encode_encoded in H
    as (key & wk & iv & now & token & cover & secret & saved & Hk & Hf & Hh & Hs & Hfiles).
  destruct (Hlsb _ _ _ _ _ Hh Hpng Hs) as (image & Hopen & Hreveal).
  exists key, wk, iv, now, token, saved, image.
  split; [exact Hk|]. split; [exact Hf|].
  split; [rewrite Hfiles; apply lookup_insert_eq|]. split; assumption.
Qed.

(** With a passphrase, the key of a successful [encode] is the derived one. *)
Lemma encode_leaves_frame_passphrase (L : Libs) (image_path input_data output_path K : str)
    (w w1 : World) :
  LsbCorrect L ->
  K <> EmptyString ->
  endswith (lower output_path) ".png" = true ->
  encode L image_path input_data output_path (Some K) w = (Return ExitEncoded, w1) ->
  exists iv now token saved image,
    Fernet_encrypt L (derive_key K) iv now (payload_data w input_data) = Some token
    /\ files w1 !! output_path = Some saved
    /\ Image_open L saved = Some image
    /\ lsb_reveal L image
       = Some (Some (string_of_list_byte (frame L token (payload_name w input_data)))).
Proof.
  intros Hlsb HK Hpng H.
  destruct (encode_leaves_frame _ _ _ _ _ _ _ Hlsb Hpng H)
    as (key & wk & iv & now & token & saved & image & Hk & Hrest).
  rewrite generate_key_passphrase in Hk by exact HK. injection Hk as <- _.
  exists iv, now, token, saved, image. exact Hrest.
Qed.

Lemma derive_key_injective (K1 K2 : str) :
  derive_key K1 = derive_key K2 ->
  SHA256.digest (str_encode K1) = SHA256.digest (str_encode K2).
Proof. apply Base64Facts.encode_injective, Base64Facts.url_alphabet_good. Qed.



(** C4 (no partial file), what the code does instead: decoding a file
    payload with a wrong key returns nothing, but only after the output file
    was opened for writing, so a file of the payload's name is left behind
    empty, whatever it held before. *)
Theorem wrong_key_empties_file (L : Libs) (image_path input_data output_path K1 K2 : str)
    (suppress_output from_bruteforce : bool) (data : bytes) (w w1 : World) :
  FernetAuthentic L -> LsbCorrect L ->
  JsonCorrect L (basename input_data) ->
  K1 <> EmptyString -> K2 <> EmptyString ->
  SHA256.digest (str_encode K1) <> SHA256.digest (str_encode K2) ->
  endswith (lower output_path) ".png" = true ->
  files w !! input_data = Some data ->
  basename input_data <> "message.txt"%string ->
  basename input_data <> EmptyString ->
  encode L image_path input_data output_path (Some K1) w = (Return ExitEncoded, w1) ->
  exists w2,
    decode L output_path (Some K2) suppress_output None from_bruteforce w1 = (Return None, w2)
    /\ files w2 = <[basename input_data := []]> (files w1).
Proof.
  intros Hauth Hlsb Hjson HK1 HK2 Hdigest Hpng Hsome Hname Hne Henc.
  destruct (encode_leaves_frame_passphrase _ _ _ _ _ _ _ Hlsb HK1 Hpng Henc)
    as (iv & now & token & saved & image & Htoken & Hfile & Hopen & Hreveal).
  assert (payload_name w input_data = basename input_data) as Hpn
    by (unfold payload_name; rewrite Hsome; reflexivity).
  rewrite Hpn in Hreveal.
  pose proof (decode_frame L output_path (Some K2) suppress_output None from_bruteforce w1 _
                _ saved image token _ Hpng (generate_key_passphrase K2 w1 HK2)
                Hfile Hopen Hreveal Hjson) as Hdec.
  assert (derive_key K1 <> derive_key K2) as Hkeys
    by (intros E; apply Hdigest, derive_key_injective, E).
  rewrite (Hauth _ _ _ _ _ _ Hkeys Htoken) in Hdec.
  rewrite deliver_nothing_file in Hdec by assumption.
  eexists. split; [exact Hdec | reflexivity].
Qed.

(** C10 (the sentinel name, as the code has it). A file payload whose base
    name is "message.txt" is never saved by [decode], whatever the output
    file asked for: its bytes are returned as a string when they are
    well-formed UTF-8, and nothing is returned otherwise. *)
Theorem message_txt_is_text (L : Libs) (image_path input_data output_path K : str)
    (suppress_output : bool) (output_file : option str) (from_bruteforce : bool)
    (data : bytes) (w w1 : World) :
  FernetCorrect L -> LsbCorrect L ->
  JsonCorrect L "message.txt" ->
  K <> EmptyString ->
  endswith (lower output_path) ".png" = true ->
  files w !! input_data = Some data ->
  basename input_data = "message.txt"%string ->
  encode L image_path input_data output_path (Some K) w = (Return ExitEncoded, w1) ->
  exists w2,
    decode L output_path (Some K) suppress_output output_file from_bruteforce w1
    = (Return (if utf8_valid data then Some (string_of_list_byte data) else None), w2)
    /\ files w2 = files w1.
Proof.
  intros Hfernet Hlsb Hjson HK Hpng Hsome Hname Henc.
  destruct (encode_leaves_frame_passphrase _ _ _ _ _ _ _ Hlsb HK Hpng Henc)
    as (iv & now & token & saved & image & Htoken & Hfile & Hopen & Hreveal).
  unfold payload_name, payload_data in *. rewrite Hsome in *. rewrite Hname in *.
  pose proof (decode_frame L output_path (Some K) suppress_output output_file
                from_bruteforce w1 _ _ saved image token _ Hpng
                (generate_key_passphrase K w1 HK) Hfile Hopen Hreveal Hjson) as Hdec.
  rewrite (Hfernet _ _ _ _ _ Htoken) in Hdec. rewrite Hdec.
  destruct (deliver_text data suppress_output output_file from_bruteforce
              (record (decrypt_event (Some data))
                 (record (CallReveal output_path) (record LogKeyFromUser w1))))
    as (w2 & Hrun & Hfiles).
  exists w2. split; [exact Hrun | exact Hfiles].
Qed.

(** ** The sample collaborators keep their contracts *)

Lemma bytes_eqb_eq (a b : bytes) : Sample.bytes_eqb a b = true <-> a = b.
Proof.
  revert b. induction a as [|x a IH]; intros [|y b]; cbn; split; try congruence.
  - intros H. apply andb_prop in H as [H1 H2].
    apply Byte.byte_dec_bl in H1. apply IH in H2. congruence.
  - intros H. injection H as -> ->. rewrite Byte.byte_dec_lb by reflexivity.
    apply IH. reflexivity.
Qed.

Lemma sample_fernet_inv (key iv : bytes) (now : Z) (data token : bytes) :
  Sample.Fernet_encrypt key iv now data = Some token ->
  length key = 44%nat /\ length iv = 16%nat /\ token = key ++ iv ++ data.
Proof.
  unfold Sample.Fernet_encrypt.
  destruct (length key =? 44)%nat eqn:E1; [|discriminate].
  destruct (length iv =? 16)%nat eqn:E2; [|discriminate].
  apply Nat.eqb_eq in E1, E2. cbn. intros H. injection H as <-. auto.
Qed.

Lemma sample_fernet_correct : FernetCorrect Sample.libs.
Proof.
  intros key iv now data token H. apply sample_fernet_inv in H as (Hk & Hi & ->).
  cbn. unfold Sample.Fernet_decrypt.
  rewrite Hk, Nat.eqb_refl. rewrite !length_app, Hk, Hi.
  replace (60 <=? 44 + (16 + length data))%nat with true by (symmetry; apply Nat.leb_le; lia).
  rewrite <- Hk at 1. rewrite firstn_app, Nat.sub_diag, firstn_all, firstn_O, app_nil_r.
  rewrite (proj2 (bytes_eqb_eq key key) eq_refl). cbn.
  f_equal. rewrite app_assoc. rewrite skipn_app.
  rewrite skipn_all2 by (rewrite length_app; lia).
  rewrite length_app, Hk, Hi. reflexivity.
Qed.

Lemma sample_fernet_authentic : FernetAuthentic Sample.libs.
Proof.
  intros key key' iv now data token Hne H. apply sample_fernet_inv in H as (Hk & Hi & ->).
  cbn. unfold Sample.Fernet_decrypt.
  destruct (length key' =? 44)%nat; [|reflexivity].
  destruct (60 <=? _)%nat; [|reflexivity]. cbn.
  destruct (Sample.bytes_eqb _ key') eqn:E; [|reflexivity].
  apply bytes_eqb_eq in E. exfalso. apply Hne.
  rewrite <- E. rewrite <- Hk at 1.
  rewrite firstn_app, Nat.sub_diag, firstn_all, firstn_O, app_nil_r. reflexivity.
Qed.

Lemma sample_lsb_correct : LsbCorrect Sample.libs.
Proof.
  intros cover message secret output_path saved Hhide Hpng Hsave. cbn in *.
  unfold Sample.lsb_hide in Hhide.
  destruct (String.length message =? 0)%nat eqn:E; [discriminate|].
  destruct (_ <? _); [discriminate|]. injection Hhide as <-.
  unfold Sample.Image_save in Hsave. rewrite Hpng in Hsave. injection Hsave as <-.
  eexists. split; [reflexivity|]. unfold Sample.lsb_reveal. cbn [Sample.carried].
  unfold str_encode. rewrite string_of_list_byte_of_string.
  destruct (String.eqb message EmptyString) eqn:E2; [|reflexivity].
  apply String.eqb_eq in E2. subst message. discriminate E.
Qed.

Lemma sample_json_message_txt : JsonCorrect Sample.libs "message.txt".
Proof. split; vm_compute; reflexivity. Qed.

Lemma sample_json_secret_bin : JsonCorrect Sample.libs "secret.bin".
Proof. split; vm_compute; reflexivity. Qed.


(** ** The wordlist is read once, as latin-1 *)


(** ** The search *)
Module BruteforceFacts.
Import Bruteforce.

Lemma words_insert (fs : list Task) (i : nat) (t t' : Task) :
  fs !! i = Some t -> word t' = word t -> word <$> <[i := t']> fs = word <$> fs.
Proof.
  intros Hi Hw. rewrite list_fmap_insert, Hw.
  apply list_insert_id. rewrite list_lookup_fmap, Hi. reflexivity.
Qed.

Lemma started_app (a b : list Task) : started (a ++ b) = started a ++ started b.
Proof. apply flat_map_app. Qed.

Lemma started_insert_same (fs : list Task) (i : nat) (t t' : Task) :
  fs !! i = Some t -> word t' = word t -> is_started t' = is_started t ->
  started (<[i := t']> fs) = started fs.
Proof.
  intros Hi Hw Hs. rewrite <- (take_drop_middle fs i t Hi) at 2.
  rewrite insert_take_drop by (eapply lookup_lt_Some; eauto).
  rewrite !started_app. cbn [started flat_map]. rewrite Hw, Hs. reflexivity.
Qed.

Lemma started_insert_new (fs : list Task) (i : nat) (t t' : Task) :
  fs !! i = Some t -> word t' = word t -> is_started t = false -> is_started t' = true ->
  started (<[i := t']> fs) ≡ₚ word t :: started fs.
Proof.
  intros Hi Hw Hs Hs'. rewrite <- (take_drop_middle fs i t Hi) at 2.
  rewrite insert_take_drop by (eapply lookup_lt_Some; eauto).
  rewrite !started_app. cbn [started flat_map]. rewrite Hw, Hs, Hs'. cbn [app].
  symmetry. apply Permutation_middle.
Qed.

Lemma started_delete (fs : list Task) (i : nat) (t : Task) :
  fs !! i = Some t -> is_started t = true ->
  started fs ≡ₚ word t :: started (delete i fs).
Proof.
  intros Hi Hs. rewrite <- (take_drop_middle fs i t Hi) at 1.
  rewrite delete_take_drop, !started_app. cbn [started flat_map]. rewrite Hs. cbn [app].
  symmetry. apply Permutation_middle.
Qed.

Lemma words_delete (fs : list Task) (i : nat) (t : Task) :
  fs !! i = Some t -> word <$> fs ≡ₚ word t :: (word <$> delete i fs).
Proof.
  intros Hi. rewrite (delete_Permutation fs i t Hi) at 1. reflexivity.
Qed.

Lemma word_cancel (t : Task) : word (cancel t) = word t.
Proof. unfold cancel. destruct (status t); reflexivity. Qed.

Lemma words_cancel (fs : list Task) : word <$> map cancel fs = word <$> fs.
Proof.
  induction fs as [|t fs IH]; [reflexivity|]. cbn. rewrite word_cancel. f_equal. exact IH.
Qed.

Lemma started_cancel (fs : list Task) : started (map cancel fs) = started fs.
Proof.
  induction fs as [|t fs IH]; [reflexivity|]. cbn [map started flat_map].
  fold (started (map cancel fs)). fold (started fs). rewrite IH. f_equal.
  destruct t as [c st]. destruct st; reflexivity.
Qed.


Section Steps.

Context (L : Libs) (image_path : str) (wordlist : list str).

Lemma step_preserves (l : Label) (s s' : Search) :
  step L image_path l s = Some s' -> Inv wordlist s -> Inv wordlist s'.
Proof.
  intros Hstep HI. destruct HI as [Hw Ha Hr He Hf].
  destruct l as [i|i|i|i| | |]; cbn [step] in Hstep.
  - (* Take *)
    destruct (futures s !! i) as [[c st]|] eqn:Hi; [|discriminate].
    destruct st; try discriminate. injection Hstep as <-.
    constructor; cbn [retired futures words stop_event phase attempted].
    + rewrite (words_insert _ _ _ _ Hi) by reflexivity. exact Hw.
    + rewrite (started_insert_same _ _ _ _ Hi) by reflexivity. exact Ha.
    + intros Hp Hnil. apply (f_equal length) in Hnil. rewrite length_insert in Hnil.
      apply Hr; [exact Hp|]. destruct (futures s); [reflexivity|discriminate].
    + intros Hp. destruct (He Hp) as [Hnil _]. rewrite Hnil in Hi. discriminate.
    + exact Hf.
  - (* Enter *)
    destruct (futures s !! i) as [[c st]|] eqn:Hi; [|discriminate].
    destruct st; try discriminate.
    destruct (stop_event s) eqn:Hflag; injection Hstep as <-;
      constructor; cbn [retired futures words stop_event phase attempted].
    + rewrite (words_insert _ _ _ _ Hi) by reflexivity. exact Hw.
    + discriminate.
    + intros Hp. destruct Hf as [Hf _]. rewrite (Hf eq_refl) in Hp. discriminate.
    + intros Hp. destruct (He Hp) as [Hnil _]. rewrite Hnil in Hi. discriminate.
    + exact Hf.
    + rewrite (words_insert _ _ _ _ Hi) by reflexivity. exact Hw.
    + intros _. rewrite (started_insert_new _ _ _ _ Hi) by reflexivity.
      cbn [word]. rewrite (Ha eq_refl). apply Permutation_middle.
    + intros Hp Hnil. apply (f_equal length) in Hnil. rewrite length_insert in Hnil.
      apply Hr; [exact Hp|]. destruct (futures s); [reflexivity|discriminate].
    + intros Hp. destruct (He Hp) as [Hnil _]. rewrite Hnil in Hi. discriminate.
    + exact Hf.
  - (* Finish *)
    destruct (futures s !! i) as [[c st]|] eqn:Hi; [|discriminate].
    destruct st; try discriminate.
    destruct (try_key L image_path c (world s)) as [result w']. injection Hstep as <-.
    constructor; cbn [retired futures words stop_event phase attempted].
    + rewrite (words_insert _ _ _ _ Hi) by reflexivity. exact Hw.
    + rewrite (started_insert_same _ _ _ _ Hi) by reflexivity. exact Ha.
    + intros Hp Hnil. apply (f_equal length) in Hnil. rewrite length_insert in Hnil.
      apply Hr; [exact Hp|]. destruct (futures s); [reflexivity|discriminate].
    + intros Hp. destruct (He Hp) as [Hnil _]. rewrite Hnil in Hi. discriminate.
    + exact Hf.
  - (* Collect *)
    destruct (phase s) eqn:Hp; try discriminate.
    assert (stop_event s = false) as Hflag.
    { destruct (stop_event s); [|reflexivity]. destruct Hf as [Hf _].
      specialize (Hf eq_refl). discriminate. }
    destruct (futures s !! i) as [[c st]|] eqn:Hi; [|discriminate].
    destruct st as [| | |[[key message]|]|]; try discriminate; injection Hstep as <-.
    + constructor; cbn [retired futures words stop_event phase attempted];
        try assumption; try discriminate.
      rewrite Hflag. split; discriminate.
    + unfold refill. cbn [words]. destruct (words s) as [|next rest] eqn:Hwords;
        constructor; cbn [retired futures words stop_event phase attempted].
      * rewrite Hw, (words_delete _ _ _ Hi). cbn [word].
        rewrite !app_nil_r. cbn. symmetry. apply Permutation_middle.
      * intros _. rewrite (Ha Hflag), (started_delete _ _ _ Hi) by reflexivity.
        cbn [word]. symmetry. apply Permutation_middle.
      * reflexivity.
      * intros; discriminate.
      * rewrite Hflag. split; discriminate.
      * rewrite Hw, (words_delete _ _ _ Hi). cbn [word].
        rewrite fmap_app. cbn [fmap list_fmap word].
        rewrite <- !app_assoc. cbn [app].
        rewrite <- Permutation_middle. cbn [app]. apply Permutation_skip.
        apply Permutation_app_head. apply Permutation_app_head. reflexivity.
      * intros _. rewrite (Ha Hflag), (started_delete _ _ _ Hi) by reflexivity.
        rewrite started_app. cbn [started flat_map is_started status word app].
        rewrite app_nil_r. symmetry. apply Permutation_middle.
      * intros _ Hnil. apply app_eq_nil in Hnil as [_ Hnil]. discriminate.
      * intros; discriminate.
      * rewrite Hflag. split; discriminate.
  - (* Exhaust *)
    destruct (phase s) eqn:Hp; try discriminate.
    destruct (futures s) eqn:Hfs; [|discriminate]. injection Hstep as <-.
    constructor; cbn [retired futures words stop_event phase attempted];
      try assumption; try discriminate.
    + intros _. split; [reflexivity|]. apply Hr; reflexivity.
    + split; [|discriminate]. intros Hflag. apply Hf in Hflag. discriminate.
  - (* Interrupt *)
    destruct (phase s) eqn:Hp; try discriminate. injection Hstep as <-.
    constructor; cbn [retired futures words stop_event phase attempted];
      try assumption; try discriminate.
    split; reflexivity.
  - (* Shutdown *)
    destruct (phase s) eqn:Hp; try discriminate; injection Hstep as <-;
      constructor; cbn [retired futures words stop_event phase attempted];
      rewrite ?words_cancel, ?started_cancel; try assumption; try discriminate.
    intros _. destruct (He eq_refl) as [Hnil Hwords]. rewrite Hnil. auto.
Qed.

Lemma run_preserves (labels : list Label) (s s' : Search) :
  run L image_path labels s = Some s' -> Inv wordlist s -> Inv wordlist s'.
Proof.
  revert s. induction labels as [|l labels IH]; intros s Hrun HI; cbn [run] in Hrun.
  - injection Hrun as <-. exact HI.
  - destruct (step L image_path l s) as [s1|] eqn:Hstep; [|discriminate].
    apply (IH s1 Hrun). eapply step_preserves; eauto.
Qed.

End Steps.

Lemma start_inv (max_threads : Z) (wordlist : list str) (w : World) (s : Search) :
  start max_threads wordlist w = Some s -> Inv wordlist s.
Proof.
  unfold start. destruct (max_threads <=? 0) eqn:E; [discriminate|].
  apply Z.leb_gt in E. intros H. injection H as <-.
  constructor; cbn [retired futures words stop_event phase attempted].
  - cbn [app]. rewrite <- list_fmap_compose.
    replace (word ∘ (fun c => mkTask c Pending)) with (@id str) by reflexivity.
    rewrite list_fmap_id, take_drop. reflexivity.
  - intros _. cbn [app]. induction (take _ wordlist) as [|c l IH]; [reflexivity|exact IH].
  - intros _ Hnil. apply fmap_nil_inv in Hnil.
    destruct wordlist as [|c l]; [apply drop_nil|].
    destruct (Z.to_nat max_threads) eqn:En; [lia|discriminate].
  - discriminate.
  - split; discriminate.
Qed.

End BruteforceFacts.

(** ** Key derivation *)

(** The model against the test vectors of the standard and of the library. *)
Example digest_abc :
  SHA256.digest (list_byte_of_string "abc")
  = [xba; x78; x16; xbf; x8f; x01; xcf; xea; x41; x41; x40; xde; x5d; xae; x22; x23;
     xb0; x03; x61; xa3; x96; x17; x7a; x9c; xb4; x10; xff; x61; xf2; x00; x15; xad].
Proof. vm_compute. reflexivity. Qed.

Example digest_two_blocks :
  SHA256.digest
    (list_byte_of_string "abcdbcdecdefdefgefghfghighijhijkijkljklmklmnlmnomnopnopq")
  = [x24; x8d; x6a; x61; xd2; x06; x38; xb8; xe5; xc0; x26; x93; x0c; x3e; x60; x39;
     xa3; x3c; xe4; x59; x64; xff; x21; x67; xf6; xec; xed; xd4; x19; xdb; x06; xc1].
Proof. vm_compute. reflexivity. Qed.

Example b64encode_hello :
  Base64.b64encode (list_byte_of_string "hello world!?")
  = list_byte_of_string "aGVsbG8gd29ybGQhPw==".
Proof. vm_compute. reflexivity. Qed.

Example b64decode_bad_padding :
  Base64.b64decode (list_byte_of_string "aGVsbG8gd29ybGQhPw=") = None.
Proof. vm_compute. reflexivity. Qed.

Example split_overlap : split [x00; x00; x00; x00] = [[]; [x00]].
Proof. reflexivity. Qed.

Lemma be_bytes_length (n : nat) (x : Z) : length (SHA256.be_bytes n x) = n.
Proof. induction n as [|n IH]; cbn [SHA256.be_bytes length]; [reflexivity | rewrite IH; reflexivity]. Qed.

Lemma digest_length (msg : bytes) : length (SHA256.digest msg) = 32%nat.
Proof. unfold SHA256.digest. rewrite !length_app, !be_bytes_length. reflexivity. Qed.

Lemma urlsafe_length_32 (raw : bytes) :
  length raw = 32%nat -> length (Base64.urlsafe_b64encode raw) = 44%nat.
Proof.
  intros H. unfold Base64.urlsafe_b64encode. rewrite Base64Facts.encode_length, H. reflexivity.
Qed.

Lemma derive_key_printable (K : str) : forallb printable (derive_key K) = true.
Proof. apply Base64Facts.encode_printable, Base64Facts.url_alphabet_good. Qed.

Lemma printable_valid (s : bytes) : forallb printable s = true -> utf8_valid s = true.
Proof.
  intros H. rewrite <- (app_nil_r s).
  rewrite utf8_valid_ascii by apply forallb_printable_ascii, H. reflexivity.
Qed.



(** The empty passphrase is no passphrase: the key is drawn at random. *)
Lemma generate_key_empty (w : World) :
  generate_key (Some EmptyString) w
  = (Return (Some (Base64.urlsafe_b64encode (map (urandom w) (seq (drawn w) 32)))),
     record LogRandomKey (mkWorld (files w) (urandom w) (drawn w + 32) (clock w) (trace w))).
Proof. reflexivity. Qed.


(** ** Parsing the frame *)


(** C5 (frame parsing). On an image that reveals a text, a split of the text
    at the separator into fewer or more than two parts makes [decode] return
    nothing, with no file touched and nothing decrypted: it prints that the
    format is corrupted, or logs the failed unpacking. Two parts are what
    precedes and what follows the first occurrence of the separator, which
    then is the only one; and the frame [encode] builds splits into its
    encoded token and its metadata. *)
Theorem frame_parts (L : Libs) (image_path : str) (user_key : option str)
    (suppress_output : bool) (output_file : option str) (from_bruteforce : bool)
    (w : World) (data : bytes) (image : Image L) (message : str) :
  endswith (lower image_path) ".png" = true ->
  files w !! image_path = Some data ->
  Image_open L data = Some image ->
  lsb_reveal L image = Some (Some message) ->
  message <> EmptyString ->
  (length (split (str_encode message)) <> 2%nat ->
   exists key_event w2,
     decode L image_path user_key suppress_output output_file from_bruteforce w
     = (Return None, w2)
     /\ files w2 = files w
     /\ trace w2
        = (if (length (split (str_encode message)) <? 2)%nat
           then PrintCorrupted else LogDecodeError ValueError)
          :: CallReveal image_path :: key_event :: trace w)
  /\
  (forall p1 p2,
     split (str_encode message) = [p1; p2] ->
     str_encode message = p1 ++ separator ++ p2
     /\ (forall i, (i < length p1)%nat -> ~ occurs_at (str_encode message) i)
     /\ (forall i, ~ occurs_at p2 i))
  /\
  (forall token name,
     JsonCorrect L name ->
     split (frame L token name)
     = [Base64.b64encode token; str_encode (json_dumps L (metadata_of name))]).
Proof.
  intros Hpng Hfile Hopen Hreveal Hne. split; [|split].
  - intros Hparts.
    destruct (generate_key_runs user_key w) as (key & key_event & wk & Hkey & Hfiles & Htrace).
    exists key_event. unfold decode.
    rewrite (bind_eq _ _ w w true) by (rewrite ensure_png_run, Hpng; reflexivity).
    cbn [negb]. rewrite (bind_eq _ _ _ _ _ Hkey).
    rewrite (try_bind _ _ _ _ _ _
               (reveal_run L image_path (record key_event wk) data image (Some message)
                  ltac:(cbn [files record]; rewrite Hfiles; exact Hfile) Hopen Hreveal)).
    rewrite truthy_Some by exact Hne. cbn [default from_option id].
    destruct (split (str_encode message)) as [|p1 [|p2 [|p3 rest]]]; cbn [length] in *.
    + eexists. split; [reflexivity|]. cbn. rewrite Hfiles, Htrace. split; reflexivity.
    + eexists. split; [reflexivity|]. cbn. rewrite Hfiles, Htrace. split; reflexivity.
    + contradiction.
    + eexists. split; [reflexivity|]. cbn. rewrite Hfiles, Htrace. split; reflexivity.
  - intros p1 p2 Hsplit. unfold split in Hsplit.
    apply split_from_two in Hsplit as (q & -> & Hs & Hbefore & Hafter).
    cbn [rev app]. split; [exact Hs|]. split; assumption.
  - intros token name Hjson. apply split_the_frame, Hjson.
Qed.

(** ** The capacity check *)

Lemma derive_key_valid (K : str) : utf8_valid (derive_key K) = true.
Proof. apply printable_valid, derive_key_printable. Qed.



Lemma encrypt_run (L : Libs) (data key : bytes) (w : World) :
  let r := Fernet_encrypt L key (map (urandom w) (seq (drawn w) 16)) (clock w) data in
  encrypt L data key w
  = (Return r, record (encrypt_event r)
                 (mkWorld (files w) (urandom w) (drawn w + 16) (clock w) (trace w))).
Proof.
  cbv zeta. unfold encrypt, try_except, bind, os_urandom, time_time. cbv beta iota.
  cbn [clock]. destruct (Fernet_encrypt L key _ (clock w) data); reflexivity.
Qed.

Lemma hide_run (L : Libs) (image_path message : str) (w : World) (data : bytes)
    (image : Image L) :
  files w !! image_path = Some data -> Image_open L data = Some image ->
  hide L image_path message w
  = (match lsb_hide L image message with
     | Some secret => Return secret
     | None => Raise CodecError
     end, record (CallHide image_path message) w).
Proof.
  intros Hfile Hopen. unfold hide. rewrite bind_emit.
  rewrite (bind_eq _ _ _ _ image) by (apply image_open_run with data; assumption).
  destruct (lsb_hide L image message); reflexivity.
Qed.

(** C2 (capacity guard), what the code checks instead: the length of the
    token before its base64 encoding plus the length of the metadata. When
    that fits the capacity and the frame does not, [encode] passes the
    check, prints the size and calls the embedding adapter with the
    frame. *)
Theorem capacity_check_measures_token (L : Libs) (image_path input_data output_path K : str)
    (w : World) (cover_data : bytes) (cover : Image L) (token : bytes) :
  let name := payload_name w input_data in
  let metadata := str_encode (json_dumps L (metadata_of name)) in
  let capacity := Image_width L cover * Image_height L cover * 3 / 8 in
  endswith (lower image_path) ".png" = true ->
  K <> EmptyString ->
  files w !! image_path = Some cover_data ->
  Image_open L cover_data = Some cover ->
  Fernet_encrypt L (derive_key K) (map (urandom w) (seq (drawn w) 16)) (clock w)
    (payload_data w input_data) = Some token ->
  JsonCorrect L name ->
  Z.of_nat (length token) + Z.of_nat (length metadata) <= capacity ->
  capacity < Z.of_nat (length (frame L token name)) ->
  exists exit later w1,
    encode L image_path input_data output_path (Some K) w = (Return exit, w1)
    /\ (exit = ExitEncoded \/ exit = ExitEncodeError)
    /\ trace w1
       = later
         ++ CallHide image_path (string_of_list_byte (frame L token name))
         :: PrintMessageSize (Z.of_nat (length token) + Z.of_nat (length metadata))
         :: LogEncrypted
         :: LogKeyForEncoding (string_of_list_byte (derive_key K))
         :: LogKeyFromUser :: trace w.
Proof.
  intros name metadata capacity Hpng HK Hfile Hopen Htoken Hjson Hfits Hframe.
  unfold encode.
  rewrite (bind_eq _ _ w w true) by (rewrite ensure_png_run, Hpng; reflexivity).
  cbn [negb]. rewrite (bind_eq _ _ _ _ _ (generate_key_passphrase K w HK)).
  unfold decode_str, bytes_decode. rewrite derive_key_valid. cbn [or_raise].
  rewrite bind_ret, bind_emit.
  unfold os_path_isfile at 1. unfold bind at 1. cbn [files record].
  set (wa := record _ (record _ w)).
  assert (forall k : option (str * bytes) -> Py EncodeExit,
            bind (if bool_decide (is_Some (files w !! input_data))
                  then try_except
                         (file_data <- read_file input_data ;;
                          ret (Some (basename input_data, file_data)))
                         (fun e => emit (LogReadError e) ;; ret None)
                  else ret (Some ("message.txt"%string, str_encode input_data))) k wa
            = k (Some (name, payload_data w input_data)) wa) as Hpayload.
  { intros k. subst name. unfold payload_name, payload_data.
    destruct (files w !! input_data) as [d|] eqn:E.
    - rewrite bool_decide_eq_true_2 by eauto.
      unfold bind, try_except, read_file. subst wa. cbn [files record]. rewrite E. reflexivity.
    - rewrite bool_decide_eq_false_2 by (intros [? ?]; discriminate). reflexivity. }
  rewrite Hpayload. cbv beta iota.
  rewrite (bind_eq _ _ _ _ _ (encrypt_run L _ _ wa)).
  subst wa. cbn [urandom drawn clock files trace record]. rewrite Htoken.
  set (wb := record (encrypt_event (Some token)) _).
  rewrite (bind_eq _ _ wb wb (Some cover)).
  2:{ unfold try_except.
      rewrite (bind_eq _ _ wb wb cover) by (apply image_open_run with cover_data; assumption).
      reflexivity. }
  cbn [or_raise]. rewrite bind_ret.
  fold name. fold metadata. fold capacity.
  destruct (capacity <? _) eqn:E; [apply Z.ltb_lt in E; lia|].
  rewrite bind_emit.
  change (Base64.b64encode token ++ separator ++ metadata) with (frame L token name).
  rewrite (frame_valid L token name Hjson). cbn [or_raise].
  rewrite try_bind_ret. unfold hide. 
  set (msg := string_of_list_byte (frame L token name)).
  set (wc := record (PrintMessageSize _) wb).
  fold (hide L image_path msg).
  assert (files wc !! image_path = Some cover_data) as Hfile' by exact Hfile.
  pose proof (hide_run L image_path msg wc cover_data cover Hfile' Hopen) as Hhide.
  destruct (lsb_hide L cover msg) as [secret|].
  2:{ rewrite (try_bind_raise _ _ _ _ _ _ Hhide).
      exists ExitEncodeError, [LogEncodeError CodecError]. eexists.
      split; [reflexivity|]. split; [right; reflexivity|]. reflexivity. }
  rewrite (try_bind _ _ _ _ _ _ Hhide).
  unfold save, try_except, bind, open_wb.
  destruct (Image_save L secret output_path) as [saved|]; cbn [or_raise ret raise].
  2:{ exists ExitEncodeError, [LogEncodeError ValueError]. eexists.
      split; [reflexivity|]. split; [right; reflexivity|]. reflexivity. }
  destruct (String.eqb output_path EmptyString).
  { exists ExitEncodeError, [LogEncodeError FileNotFoundError]. eexists.
    split; [reflexivity|]. split; [right; reflexivity|]. reflexivity. }
  exists ExitEncoded, [PrintEncryptionKey (string_of_list_byte (derive_key K)); PrintEncoded].
  eexists. split; [reflexivity|]. split; [left; reflexivity|]. reflexivity.
Qed.

(** ** Concrete runs *)


Lemma message_txt_binary :
  encode Sample.libs "cover.png" "message.txt" "out.png" (Some "k1"%string)
    (sample_world_file "message.txt" [xff])
  = (Return ExitEncoded, binary_world)
  /\ fst (decode Sample.libs "out.png" (Some "k1"%string) false None false binary_world)
     = Return None.
Proof. split; vm_compute; reflexivity. Qed.


Lemma wrong_key_empties_file_witness :
  exists w2,
    decode Sample.libs "out.png" (Some "k2"%string) false None false secret_world
    = (Return None, w2)
    /\ files w2 = <["secret.bin"%string := []]> (files secret_world).
Proof.
  refine (wrong_key_empties_file Sample.libs "cover.png" "secret.bin" "out.png" "k1" "k2"
            false false [x01; x02; xff] (sample_world_file "secret.bin" [x01; x02; xff])
            secret_world sample_fernet_authentic sample_lsb_correct _ _ _ _ _ _ _ _ _).
  - vm_compute. split; reflexivity.
  - discriminate.
  - discriminate.
  - vm_compute. discriminate.
  - vm_compute. reflexivity.
  - vm_compute. reflexivity.
  - vm_compute. discriminate.
  - vm_compute. discriminate.
  - vm_compute. reflexivity.
Defined.

Lemma message_txt_is_text_witness :
  exists w2,
    decode Sample.libs "out.png" (Some "k1"%string) false None false binary_world
    = (Return None, w2)
    /\ files w2 = files binary_world.
Proof.
  refine (message_txt_is_text Sample.libs "cover.png" "message.txt" "out.png" "k1"
            false None false [xff] (sample_world_file "message.txt" [xff])
            binary_world sample_fernet_correct sample_lsb_correct sample_json_message_txt
            _ _ _ _ _).
  - discriminate.
  - vm_compute. reflexivity.
  - vm_compute. reflexivity.
  - vm_compute. reflexivity.
  - vm_compute. reflexivity.
Defined.



Lemma frame_parts_witness :
  exists key_event w2,
    decode Sample.libs "odd.png" (Some "k1"%string) false None false odd_world
    = (Return None, w2)
    /\ files w2 = files odd_world
    /\ trace w2 = PrintCorrupted :: CallReveal "odd.png" :: key_event :: trace odd_world.
Proof.
  refine (proj1 (frame_parts Sample.libs "odd.png" (Some "k1"%string) false None false
                   odd_world (Sample.cover ++ list_byte_of_string "no separator here")
                   (Sample.mkPicture 100 100 "no separator here") "no separator here"
                   _ _ _ _ _) _).
  - vm_compute. reflexivity.
  - vm_compute. reflexivity.
  - vm_compute. reflexivity.
  - vm_compute. reflexivity.
  - discriminate.
  - vm_compute. discriminate.
Defined.



Lemma capacity_check_witness :
  exists exit w1,
    encode Sample.libs "small.png" "hello" "out.png" (Some "k1"%string) small_world
    = (Return exit, w1)
    /\ (exit = ExitEncoded \/ exit = ExitEncodeError)
    /\ In (PrintMessageSize 92) (trace w1)
    /\ (exists message, In (CallHide "small.png" message) (trace w1)
                        /\ String.length message = 118%nat).
Proof.
  pose proof (capacity_check_measures_token Sample.libs "small.png" "hello" "out.png" "k1"
                small_world [byte_of_Z 16; byte_of_Z 16] (Sample.mkPicture 16 16 EmptyString)
                (derive_key "k1" ++ map (urandom small_world) (seq 0 16)
                   ++ list_byte_of_string "hello")) as H.
  cbv zeta in H.
  destruct H as (exit & later & w1 & Hrun & Hexit & Htrace).
  - vm_compute. reflexivity.
  - discriminate.
  - vm_compute. reflexivity.
  - vm_compute. reflexivity.
  - vm_compute. reflexivity.
  - vm_compute. split; reflexivity.
  - vm_compute. discriminate.
  - vm_compute. reflexivity.
  - exists exit, w1. split; [exact Hrun|]. split; [exact Hexit|].
    rewrite Htrace. split.
    + apply in_or_app. right. right. left. vm_compute. reflexivity.
    + eexists. split; [apply in_or_app; right; left; reflexivity|].
      vm_compute. reflexivity.
Defined.

Import Bruteforce BruteforceFacts.

(** When no word decodes, the search can come to its end: one future after
    the other is taken, run and collected. *)
Lemma sequential_run (L : Libs) (image_path : str) :
  (forall c w, fst (try_key L image_path c w) = None) ->
  forall n s,
    (length (futures s) + length (words s) = n)%nat ->
    phase s = Scanning -> stop_event s = false ->
    Forall (fun t => status t = Pending) (futures s) ->
    exists labels s', run L image_path labels s = Some s' /\ phase s' = Exhausted.
Proof.
  intros Hnone n. induction n as [|n IH]; intros s Hn Hphase Hflag Hpending;
    destruct s as [w ws fs flag ph att ret]; cbn in *; subst flag ph.
  - destruct fs; [|discriminate]. exists [Exhaust]. eexists. split; reflexivity.
  - destruct fs as [|[c st] fs].
    + exists [Exhaust]. eexists. split; reflexivity.
    + inversion Hpending as [|? ? Hst Hrest]; subst. cbn in Hst. subst st.
      pose proof (Hnone c w) as Hc.
      destruct (try_key L image_path c w) as [r w'] eqn:Htry. cbn in Hc. subst r.
      destruct ws as [|next rest].
      * destruct (IH (mkSearch w' [] fs false Scanning (c :: att) (c :: ret)))
          as (labels & s' & Hrun & Hend); cbn; try reflexivity; try exact Hrest.
        { cbn in Hn. lia. }
        exists (Take 0%nat :: Enter 0%nat :: Finish 0%nat :: Collect 0%nat :: labels), s'.
        split; [|exact Hend]. cbn. rewrite Htry. cbn. exact Hrun.
      * destruct (IH (mkSearch w' rest (fs ++ [mkTask next Pending]) false Scanning
                        (c :: att) (c :: ret)))
          as (labels & s' & Hrun & Hend); cbn; try reflexivity.
        { cbn in Hn. rewrite length_app. cbn. lia. }
        { apply Forall_app. split; [exact Hrest|]. constructor; [reflexivity|constructor]. }
        exists (Take 0%nat :: Enter 0%nat :: Finish 0%nat :: Collect 0%nat :: labels), s'.
        split; [|exact Hend]. cbn. rewrite Htry. cbn. exact Hrun.
Qed.

Lemma exhaustion_reachable (L : Libs)
    (other_codecs : Wordlist.Encoding -> bytes -> Wordlist.TextRun)
    (image_path wordlist_path : str) (max_threads : Z) (w : World) (s0 : Search) :
  (forall c w, fst (try_key L image_path c w) = None) ->
  prepare other_codecs image_path wordlist_path max_threads w = Some s0 ->
  exists labels s, run L image_path labels s0 = Some s /\ phase s = Exhausted.
Proof.
  intros Hnone Hprepare. unfold prepare in Hprepare. destruct (negb _); [discriminate|].
  destruct (files w !! image_path); [|discriminate].
  destruct (files w !! wordlist_path); [|discriminate].
  unfold start in Hprepare. destruct (_ <=? _); [discriminate|]. injection Hprepare as <-.
  eapply (sequential_run L image_path Hnone); cbn; try reflexivity.
  apply Forall_forall. intros t Ht. apply list_elem_of_In in Ht.
  apply in_map_iff in Ht as (c & <- & _). reflexivity.
Qed.



(** C6 (cancellation), on a wordlist whose first word is the passphrase and
    two workers: the match is returned and the pool shut down with the stop
    event still unset, and the worker that had taken the second word off the
    queue then passes the check of the stop event and starts its decode. *)
Theorem success_leaves_stop_event_unset :
  let s0 := prepare no_codec "out.png" "words.txt" 2 match_world in
  let found := s0 ≫= run Sample.libs "out.png"
                       [Take 0; Enter 0; Finish 0; Take 1; Collect 0; Shutdown]%nat in
  let late := found ≫= step Sample.libs "out.png" (Enter 1%nat) in
  (fun s => word <$> futures s) <$> s0 = Some ["k1"; "zzz"]%string
  /\ phase <$> found = Some (Found "k1" "hello")
  /\ stop_event <$> found = Some false
  /\ attempted <$> found = Some ["k1"%string]
  /\ stop_event <$> late = Some false
  /\ attempted <$> late = Some ["zzz"; "k1"]%string.
Proof. vm_compute. repeat split. Qed.

(** The stop event is set on interrupt, and only then. *)
Lemma stop_event_iff_interrupted (L : Libs) (image_path : str) (max_threads : Z)
    (wordlist : list str) (w : World) (labels : list Label) (s0 s : Search) :
  start max_threads wordlist w = Some s0 ->
  run L image_path labels s0 = Some s ->
  stop_event s = true <-> phase s = Interrupted.
Proof.
  intros Hstart Hrun.
  apply (inv_flag wordlist), (run_preserves L image_path wordlist labels s0 s Hrun),
    (start_inv _ _ _ _ Hstart).
Qed.

(** Once the stop event is set, no decode is started. *)
Lemma no_attempt_after_stop (L : Libs) (image_path : str) (l : Label) (s s' : Search) :
  stop_event s = true -> step L image_path l s = Some s' ->
  attempted s' = attempted s /\ stop_event s' = true.
Proof.
  intros Hflag Hstep. destruct l as [i|i|i|i| | |]; cbn [step] in Hstep.
  - destruct (futures s !! i) as [[c []]|]; try discriminate.
    injection Hstep as <-. auto.
  - destruct (futures s !! i) as [[c []]|]; try discriminate.
    rewrite Hflag in Hstep. injection Hstep as <-. auto.
  - destruct (futures s !! i) as [[c []]|]; try discriminate.
    destruct (try_key L image_path c (world s)). injection Hstep as <-. auto.
  - destruct (phase s); try discriminate.
    destruct (futures s !! i) as [[c [| | |[[key message]|]|]]|]; try discriminate;
      injection Hstep as <-; [auto|].
    unfold refill. cbn [words]. destruct (words s); auto.
  - destruct (phase s); try discriminate. destruct (futures s); try discriminate.
    injection Hstep as <-. auto.
  - destruct (phase s); try discriminate. injection Hstep as <-. auto.
  - destruct (phase s); try discriminate; injection Hstep as <-; auto.
Qed.



(** * Further properties of the code *)

(** ** Every way [encode] can end *)

Lemma generate_key_spec (user_key : option str) (w : World) :
  exists key event wk,
    generate_key user_key w = (Return (Some key), record event wk)
    /\ files wk = files w /\ trace wk = trace w
    /\ urandom wk = urandom w /\ clock wk = clock w
    /\ drawn wk = (drawn w + if truthy user_key then 0 else 32)%nat
    /\ key = (if truthy user_key then derive_key (default EmptyString user_key)
              else Base64.urlsafe_b64encode (map (urandom w) (seq (drawn w) 32)))
    /\ length key = 44%nat
    /\ forallb printable key = true.
Proof.
  unfold generate_key, try_except, bind. destruct (truthy user_key).
  - exists (derive_key (default EmptyString user_key)), LogKeyFromUser, w.
    split; [reflexivity|]. do 4 (split; [reflexivity|]).
    split; [cbn; lia|]. split; [reflexivity|].
    split; [apply urlsafe_length_32, digest_length | apply derive_key_printable].
  - exists (Base64.urlsafe_b64encode (map (urandom w) (seq (drawn w) 32))), LogRandomKey,
      (mkWorld (files w) (urandom w) (drawn w + 32) (clock w) (trace w)).
    split; [reflexivity|]. do 6 (split; [reflexivity|]).
    split; [apply urlsafe_length_32; rewrite length_map, length_seq; reflexivity|].
    apply Base64Facts.encode_printable, Base64Facts.url_alphabet_good.
Qed.

Lemma image_try_run (L : Libs) (image_path : str) (w : World) :
  try_except (image <- image_open L image_path ;; ret (Some image))
             (fun e => emit (LogOpenError e) ;; ret None) w
  = match files w !! image_path with
    | Some data =>
        match Image_open L data with
        | Some image => (Return (Some image), w)
        | None => (Return None, record (LogOpenError CodecError) w)
        end
    | None => (Return None, record (LogOpenError FileNotFoundError) w)
    end.
Proof.
  cbv [try_except bind image_open read_file or_raise ret raise emit].
  destruct (files w !! image_path) as [data|]; [|reflexivity].
  destruct (Image_open L data); reflexivity.
Qed.

Lemma payload_run (input_data : str) (w wa : World) :
  files wa = files w ->
  (if bool_decide (is_Some (files w !! input_data))
   then try_except
          (file_data <- read_file input_data ;;
           ret (Some (basename input_data, file_data)))
          (fun e => emit (LogReadError e) ;; ret None)
   else ret (Some ("message.txt"%string, str_encode input_data))) wa
  = (Return (Some (payload_name w input_data, payload_data w input_data)), wa).
Proof.
  intros Hfiles. unfold payload_name, payload_data.
  destruct (files w !! input_data) as [d|] eqn:E.
  - rewrite bool_decide_eq_true_2 by eauto.
    cbv [bind try_except read_file ret]. rewrite Hfiles, E. reflexivity.
  - rewrite bool_decide_eq_false_2 by (intros [? ?]; discriminate). reflexivity.
Qed.

(** [encode] on an image that is not named *.png. *)
Lemma encode_not_png (L : Libs) (image_path input_data output_path : str)
    (user_key : option str) (w : World) :
  endswith (lower image_path) ".png" = false ->
  encode L image_path input_data output_path user_key w
  = (Return ExitNotPng, record PrintNotPng w).
Proof.
  intros Hpng. unfold encode.
  rewrite (bind_eq _ _ w (record PrintNotPng w) false)
    by (rewrite ensure_png_run, Hpng; reflexivity).
  reflexivity.
Qed.

(** [encode] up to the opening of the image. *)
Lemma encode_to_open (L : Libs) (image_path input_data output_path : str)
    (user_key : option str) (w wk : World) (key : bytes) :
  endswith (lower image_path) ".png" = true ->
  generate_key user_key w = (Return (Some key), wk) ->
  let data := payload_data w input_data in
  let metadata := str_encode (json_dumps L (metadata_of (payload_name w input_data))) in
  let r := Fernet_encrypt L key (map (urandom wk) (seq (drawn wk) 16)) (clock wk) data in
  let wb := before_open L key data wk in
  encode L image_path input_data output_path user_key w
  = match files w !! image_path with
    | None => (Return ExitOpenError, record (LogOpenError FileNotFoundError) wb)
    | Some cover_data =>
        match Image_open L cover_data with
        | None => (Return ExitOpenError, record (LogOpenError CodecError) wb)
        | Some cover =>
            let capacity := Image_width L cover * Image_height L cover * 3 / 8 in
            (encrypted_data <- or_raise TypeError r ;;
             let message_size :=
               Z.of_nat (length encrypted_data) + Z.of_nat (length metadata) in
             if capacity <? message_size then
               emit (PrintTooLarge message_size capacity) ;; ret ExitTooLarge
             else
               emit (PrintMessageSize message_size) ;;
               try_except
                 (message <- decode_str
                               (Base64.b64encode encrypted_data ++ separator ++ metadata) ;;
                  secret_image <- hide L image_path message ;;
                  save L secret_image output_path ;;
                  emit PrintEncoded ;;
                  key_text <- decode_str key ;;
                  emit (PrintEncryptionKey key_text) ;;
                  ret ExitEncoded)
                 (fun e => emit (LogEncodeError e) ;; ret ExitEncodeError)) wb
        end
    end.
Proof.
  intros Hpng Hkey data metadata r wb.
  destruct (generate_key_spec user_key w)
    as (key' & event & wk' & Hrun & Hfiles & _ & _ & _ & _ & _ & _ & Hprint).
  rewrite Hrun in Hkey. injection Hkey as -> <-.
  unfold encode.
  rewrite (bind_eq _ _ w w true) by (rewrite ensure_png_run, Hpng; reflexivity).
  cbn [negb]. rewrite (bind_eq _ _ _ _ _ Hrun).
  unfold decode_str at 1. unfold bytes_decode. rewrite (printable_valid _ Hprint).
  cbn [or_raise]. rewrite bind_ret, bind_emit.
  unfold os_path_isfile at 1. unfold bind at 1.
  set (wa := record _ (record event wk')).
  assert (files wa = files w) as Hfa by exact Hfiles.
  rewrite Hfa.
  rewrite (bind_eq _ _ _ _ _ (payload_run input_data w wa Hfa)). cbv beta iota.
  rewrite (bind_eq _ _ _ _ _ (encrypt_run L _ _ wa)).
  unfold bind at 1. rewrite image_try_run.
  subst wa r wb data metadata. unfold before_open.
  cbn [urandom drawn clock files trace record].
  rewrite <- Hfiles.
  destruct (files wk' !! image_path) as [cover_data|]; [|reflexivity].
  destruct (Image_open L cover_data) as [cover|]; reflexivity.
Qed.

(** The rest of [encode] on an image that opens. *)
Lemma encode_opened (L : Libs) (image_path input_data output_path : str)
    (user_key : option str) (w wk : World) (key cover_data : bytes) (cover : Image L) :
  endswith (lower image_path) ".png" = true ->
  generate_key user_key w = (Return (Some key), wk) ->
  files w !! image_path = Some cover_data ->
  Image_open L cover_data = Some cover ->
  let data := payload_data w input_data in
  let name := payload_name w input_data in
  let metadata := str_encode (json_dumps L (metadata_of name)) in
  let capacity := Image_width L cover * Image_height L cover * 3 / 8 in
  let wb := before_open L key data wk in
  encode L image_path input_data output_path user_key w
  = match Fernet_encrypt L key (map (urandom wk) (seq (drawn wk) 16)) (clock wk) data with
    | None => (Raise TypeError, wb)
    | Some token =>
        let message_size := Z.of_nat (length token) + Z.of_nat (length metadata) in
        if capacity <? message_size
        then (Return ExitTooLarge, record (PrintTooLarge message_size capacity) wb)
        else
          let wc := record (PrintMessageSize message_size) wb in
          match bytes_decode (frame L token name) with
          | None => (Return ExitEncodeError, record (LogEncodeError UnicodeDecodeError) wc)
          | Some message =>
              let wh := record (CallHide image_path message) wc in
              match lsb_hide L cover message with
              | None => (Return ExitEncodeError, record (LogEncodeError CodecError) wh)
              | Some secret =>
                  match Image_save L secret output_path with
                  | None => (Return ExitEncodeError, record (LogEncodeError ValueError) wh)
                  | Some saved =>
                      if String.eqb output_path EmptyString
                      then (Return ExitEncodeError,
                            record (LogEncodeError FileNotFoundError) wh)
                      else (Return ExitEncoded,
                            record (PrintEncryptionKey (string_of_list_byte key))
                              (record PrintEncoded
                                 (store output_path saved (store output_path [] wh))))
                  end
              end
          end
    end.
Proof.
  intros Hpng Hkey Hfile Hopen data name metadata capacity wb.
  rewrite (encode_to_open L _ _ _ _ w wk key Hpng Hkey). cbv zeta.
  rewrite Hfile, Hopen. fold data name metadata capacity wb.
  destruct (generate_key_spec user_key w)
    as (key' & event & wk' & Hrun & Hfiles & _ & _ & _ & _ & _ & _ & Hprint).
  rewrite Hrun in Hkey. injection Hkey as -> Hwk.
  destruct (Fernet_encrypt L key _ _ data) as [token|]; [|reflexivity].
  cbn [or_raise]. rewrite bind_ret.
  destruct (capacity <? _); [reflexivity|].
  rewrite bind_emit. unfold frame. fold name metadata.
  set (wc := record (PrintMessageSize _) wb).
  assert (files wc !! image_path = Some cover_data) as Hc.
  { subst wc wb. unfold before_open. cbn [files record]. rewrite <- Hwk. cbn [files record].
    rewrite Hfiles. exact Hfile. }
  unfold decode_str at 1.
  destruct (bytes_decode (Base64.b64encode token ++ separator ++ metadata)) as [message|];
    [|reflexivity].
  cbn [or_raise]. rewrite try_bind_ret.
  pose proof (hide_run L image_path message wc cover_data cover Hc Hopen) as Hhide.
  destruct (lsb_hide L cover message) as [secret|].
  2:{ rewrite (try_bind_raise _ _ _ _ _ _ Hhide). reflexivity. }
  rewrite (try_bind _ _ _ _ _ _ Hhide).
  unfold save, decode_str, bytes_decode. rewrite (printable_valid _ Hprint).
  destruct (Image_save L secret output_path) as [saved|]; [|reflexivity].
  cbv [try_except bind or_raise open_wb write_file ret raise emit].
  destruct (String.eqb output_path EmptyString); reflexivity.
Qed.

Lemma files_before_open (L : Libs) (key data : bytes) (wk : World) :
  files (before_open L key data wk) = files wk.
Proof. reflexivity. Qed.


(** X2 (the capacity check refuses). On an image that opens, when the token
    and the metadata together are longer than width*height*3//8, [encode]
    prints the two sizes and returns: the embedding adapter is not called,
    no file is written, and the last things done are the encryption and the
    print. *)
Theorem encode_rejects_oversized (L : Libs) (image_path input_data output_path : str)
    (user_key : option str) (w wk : World) (key cover_data token : bytes) (cover : Image L) :
  let metadata := str_encode (json_dumps L (metadata_of (payload_name w input_data))) in
  let capacity := Image_width L cover * Image_height L cover * 3 / 8 in
  let message_size := Z.of_nat (length token) + Z.of_nat (length metadata) in
  endswith (lower image_path) ".png" = true ->
  generate_key user_key w = (Return (Some key), wk) ->
  files w !! image_path = Some cover_data ->
  Image_open L cover_data = Some cover ->
  Fernet_encrypt L key (map (urandom wk) (seq (drawn wk) 16)) (clock wk)
    (payload_data w input_data) = Some token ->
  capacity < message_size ->
  exists w1,
    encode L image_path input_data output_path user_key w = (Return ExitTooLarge, w1)
    /\ files w1 = files w
    /\ trace w1 = PrintTooLarge message_size capacity :: LogEncrypted
                  :: LogKeyForEncoding (string_of_list_byte key) :: trace wk.
Proof.
  intros metadata capacity message_size Hpng Hkey Hfile Hopen Htoken Hlarge.
  rewrite (encode_opened L _ _ _ _ w wk key cover_data cover Hpng Hkey Hfile Hopen).
  cbv zeta. unfold before_open. rewrite Htoken.
  fold metadata. fold capacity. fold message_size.
  rewrite (proj2 (Z.ltb_lt _ _) Hlarge).
  eexists. split; [reflexivity|]. split; [|reflexivity].
  cbn [files record].
  destruct (generate_key_spec user_key w) as (key' & event & wk' & Hrun & Hfiles & _).
  rewrite Hrun in Hkey. injection Hkey as _ <-. exact Hfiles.
Qed.

Lemma encode_rejects_oversized_witness :
  exists w1,
    encode Sample.libs "small.png" "0123456789abc" "out.png" (Some "k1"%string) small_world
    = (Return ExitTooLarge, w1)
    /\ files w1 = files small_world
    /\ trace w1 = PrintTooLarge 100 96 :: LogEncrypted
                  :: LogKeyForEncoding (string_of_list_byte (derive_key "k1"))
                  :: trace (record LogKeyFromUser small_world).
Proof.
  refine (encode_rejects_oversized Sample.libs "small.png" "0123456789abc" "out.png"
            (Some "k1"%string) small_world (record LogKeyFromUser small_world)
            (derive_key "k1") [byte_of_Z 16; byte_of_Z 16]
            (derive_key "k1" ++ map (urandom small_world) (seq 0 16)
               ++ list_byte_of_string "0123456789abc")
            (Sample.mkPicture 16 16 EmptyString) _ _ _ _ _ _).
  - vm_compute. reflexivity.
  - apply generate_key_passphrase. discriminate.
  - vm_compute. reflexivity.
  - vm_compute. reflexivity.
  - vm_compute. reflexivity.
  - vm_compute. reflexivity.
Defined.





(** X5 (a key is always made). [generate_key] never takes its except
    branch: with or without a passphrase that can be encoded it returns the
    url-safe base64 text of 32 bytes, 44 printable characters that decode
    back to those bytes, the form the cipher accepts. The digest of a given
    passphrase costs no entropy; a missing or empty one costs exactly the 32
    bytes of [Fernet.generate_key]. No file is touched and one line is
    logged. *)
Theorem generate_key_well_formed (user_key : option str) (w : World) :
  exists raw event wk,
    generate_key user_key w = (Return (Some (Base64.urlsafe_b64encode raw)), wk)
    /\ length raw = 32%nat
    /\ length (Base64.urlsafe_b64encode raw) = 44%nat
    /\ forallb printable (Base64.urlsafe_b64encode raw) = true
    /\ Base64.decode_with Base64.url_alphabet (Base64.urlsafe_b64encode raw) = Some raw
    /\ raw = (if truthy user_key
              then SHA256.digest (str_encode (default EmptyString user_key))
              else map (urandom w) (seq (drawn w) 32))
    /\ drawn wk = (drawn w + if truthy user_key then 0 else 32)%nat
    /\ files wk = files w
    /\ trace wk = event :: trace w.
Proof.
  assert (forall raw, length raw = 32%nat ->
            length (Base64.urlsafe_b64encode raw) = 44%nat
            /\ forallb printable (Base64.urlsafe_b64encode raw) = true
            /\ Base64.decode_with Base64.url_alphabet (Base64.urlsafe_b64encode raw)
               = Some raw) as Hraw.
  { intros raw Hlen. split; [apply urlsafe_length_32, Hlen|]. split.
    - apply Base64Facts.encode_printable, Base64Facts.url_alphabet_good.
    - apply Base64Facts.decode_encode, Base64Facts.url_alphabet_good. }
  unfold generate_key, try_except, bind, Fernet_generate_key, os_urandom.
  destruct (truthy user_key).
  - exists (SHA256.digest (str_encode (default EmptyString user_key))), LogKeyFromUser,
      (record LogKeyFromUser w).
    destruct (Hraw _ (digest_length (str_encode (default EmptyString user_key))))
      as (H1 & H2 & H3).
    split; [reflexivity|]. split; [apply digest_length|].
    split; [exact H1|]. split; [exact H2|]. split; [exact H3|].
    split; [reflexivity|]. split; [cbn; lia|]. split; reflexivity.
  - assert (length (map (urandom w) (seq (drawn w) 32)) = 32%nat) as Hlen
      by (rewrite length_map, length_seq; reflexivity).
    exists (map (urandom w) (seq (drawn w) 32)), LogRandomKey,
      (record LogRandomKey
         (mkWorld (files w) (urandom w) (drawn w + 32) (clock w) (trace w))).
    destruct (Hraw _ Hlen) as (H1 & H2 & H3).
    split; [reflexivity|]. split; [exact Hlen|].
    split; [exact H1|]. split; [exact H2|]. split; [exact H3|].
    split; [reflexivity|]. split; [reflexivity|]. split; reflexivity.
Qed.

Lemma decode_not_png (L : Libs) (image_path : str) (user_key : option str)
    (suppress_output : bool) (output_file : option str) (from_bruteforce : bool) (w : World) :
  endswith (lower image_path) ".png" = false ->
  decode L image_path user_key suppress_output output_file from_bruteforce w
  = (Return None, record PrintNotPng w).
Proof.
  intros Hpng. unfold decode.
  rewrite (bind_eq _ _ w (record PrintNotPng w) false)
    by (rewrite ensure_png_run, Hpng; reflexivity).
  reflexivity.
Qed.

(** X6 (not a PNG name). On an image whose name does not end in .png, in
    any case of the letters, [encode] and [decode] print the notice and do
    nothing else: no key is made, no entropy drawn, no file read or
    written; and [bruteforce] starts no search. *)
Theorem not_png_refused (L : Libs)
    (other_codecs : Wordlist.Encoding -> bytes -> Wordlist.TextRun)
    (image_path input_data output_path wordlist_path : str) (user_key : option str)
    (suppress_output : bool) (output_file : option str) (from_bruteforce : bool)
    (max_threads : Z) (w : World) :
  endswith (lower image_path) ".png" = false ->
  encode L image_path input_data output_path user_key w
  = (Return ExitNotPng, record PrintNotPng w)
  /\ decode L image_path user_key suppress_output output_file from_bruteforce w
     = (Return None, record PrintNotPng w)
  /\ prepare other_codecs image_path wordlist_path max_threads w = None.
Proof.
  intros Hpng. split; [apply encode_not_png, Hpng|].
  split; [apply decode_not_png, Hpng|].
  unfold prepare. rewrite Hpng. reflexivity.
Qed.

Lemma not_png_refused_witness :
  encode Sample.libs "cover.jpg" "hello" "out.png" (Some "k1"%string) sample_world
  = (Return ExitNotPng, record PrintNotPng sample_world)
  /\ decode Sample.libs "cover.jpg" (Some "k1"%string) false None false sample_world
     = (Return None, record PrintNotPng sample_world)
  /\ prepare no_codec "cover.jpg" "words.txt" 2 sample_world = None.
Proof.
  refine (not_png_refused Sample.libs no_codec "cover.jpg" "hello" "out.png" "words.txt"
            (Some "k1"%string) false None false 2 sample_world _).
  vm_compute. reflexivity.
Defined.

(** ** The test of the image name *)

Lemma lower_cons (c : ascii) (s : str) :
  lower (String c s) = String (ascii_lower c) (lower s).
Proof. reflexivity. Qed.

Lemma lower_length (s : str) : String.length (lower s) = String.length s.
Proof.
  induction s as [|c s IH]; [reflexivity|]. rewrite lower_cons. simpl. congruence.
Qed.

Lemma lower_app (s t : str) : lower (s +:+ t) = lower s +:+ lower t.
Proof.
  induction s as [|c s IH]; [reflexivity|].
  change (lower (String c (s +:+ t)) = String (ascii_lower c) (lower s +:+ lower t)).
  rewrite lower_cons, IH. reflexivity.
Qed.

Lemma app_length_string (s t : str) :
  String.length (s +:+ t) = (String.length s + String.length t)%nat.
Proof.
  induction s as [|c s IH]; [reflexivity|].
  change (S (String.length (s +:+ t)) = S (String.length s + String.length t)).
  rewrite IH. reflexivity.
Qed.

Lemma app_cons (c : ascii) (s t : str) : String c s +:+ t = String c (s +:+ t).
Proof. reflexivity. Qed.

Lemma substring_all (s : str) : substring 0 (String.length s) s = s.
Proof. induction s as [|c s IH]; simpl; congruence. Qed.

Lemma substring_app_r (s t : str) :
  substring (String.length s) (String.length t) (s +:+ t) = t.
Proof.
  induction s as [|c s IH]; [apply substring_all|]. rewrite app_cons. exact IH.
Qed.

Lemma substring_cut (s : str) (n : nat) :
  (n <= String.length s)%nat ->
  s = substring 0 n s +:+ substring n (String.length s - n) s.
Proof.
  revert n. induction s as [|c s IH]; intros n Hn.
  - destruct n; reflexivity.
  - destruct n as [|n].
    + simpl. rewrite substring_all. reflexivity.
    + simpl in Hn. simpl. rewrite app_cons. f_equal. apply IH. lia.
Qed.

Lemma substring_length (s : str) (n m : nat) :
  (n + m <= String.length s)%nat -> String.length (substring n m s) = m.
Proof.
  revert n m. induction s as [|c s IH]; intros n m H; simpl in H.
  - assert (n = 0%nat) as -> by lia. assert (m = 0%nat) as -> by lia. reflexivity.
  - destruct n as [|n].
    + destruct m as [|m]; simpl; [reflexivity|]. f_equal. apply IH. lia.
    + simpl. apply IH. lia.
Qed.

Lemma app_inj_length (s s' t t' : str) :
  String.length s = String.length s' -> s +:+ t = s' +:+ t' -> t = t'.
Proof.
  revert s'. induction s as [|c s IH]; intros [|c' s'] Hlen H; try discriminate Hlen.
  - exact H.
  - rewrite !app_cons in H. injection H as _ H. injection Hlen as Hlen.
    exact (IH s' Hlen H).
Qed.

Lemma endswith_iff (s suffix : str) :
  endswith s suffix = true <-> exists prefix, s = prefix +:+ suffix.
Proof.
  unfold endswith. rewrite andb_true_iff, Nat.leb_le, String.eqb_eq. split.
  - intros [Hlen Hsub].
    exists (substring 0 (String.length s - String.length suffix) s).
    pose proof (substring_cut s (String.length s - String.length suffix) ltac:(lia)) as Hcut.
    replace (String.length s - (String.length s - String.length suffix))%nat
      with (String.length suffix) in Hcut by lia.
    rewrite Hsub in Hcut. exact Hcut.
  - intros [prefix ->]. rewrite app_length_string. split; [lia|].
    replace (String.length prefix + String.length suffix - String.length suffix)%nat
      with (String.length prefix) by lia.
    apply substring_app_r.
Qed.

Lemma png_name_iff (image_path : str) :
  endswith (lower image_path) ".png" = true
  <-> exists stem ext, image_path = stem +:+ ext /\ lower ext = ".png"%string.
Proof.
  rewrite endswith_iff. split.
  - intros [prefix Hlow].
    assert (4 <= String.length image_path)%nat as Hlen.
    { rewrite <- lower_length, Hlow, app_length_string. simpl. lia. }
    pose proof (substring_cut image_path (String.length image_path - 4) ltac:(lia)) as Hcut.
    pose proof (substring_length image_path (String.length image_path - 4)
                  (String.length image_path - (String.length image_path - 4)) ltac:(lia))
      as Hext.
    set (stem := substring 0 (String.length image_path - 4) image_path) in *.
    set (ext := substring (String.length image_path - 4) _ image_path) in *.
    exists stem, ext. split; [exact Hcut|].
    assert (String.length (lower stem) = String.length prefix) as Hstem.
    { pose proof (f_equal String.length Hlow) as H1.
      pose proof (f_equal String.length Hcut) as H2.
      rewrite lower_length, app_length_string in H1.
      rewrite app_length_string in H2. rewrite lower_length. simpl in H1. lia. }
    rewrite Hcut, lower_app in Hlow.
    exact (app_inj_length _ _ _ _ Hstem Hlow).
  - intros (stem & ext & -> & Hext). exists (lower stem). rewrite lower_app, Hext. reflexivity.
Qed.

(** X7 (which names pass). [ensure_png] lets a name pass exactly when it
    ends in four characters that are ".png" once A to Z are put in lower
    case, whatever comes before them: ".PNG" and ".Png" pass like ".png",
    and the contents of the file play no part. A name that passes changes
    nothing; any other name costs one printed notice. *)
Theorem ensure_png_accepts (image_path : str) (w : World) :
  ((exists stem ext, image_path = stem +:+ ext /\ lower ext = ".png"%string)
   /\ ensure_png image_path w = (Return true, w))
  \/ (~ (exists stem ext, image_path = stem +:+ ext /\ lower ext = ".png"%string)
      /\ ensure_png image_path w = (Return false, record PrintNotPng w)).
Proof.
  rewrite ensure_png_run. rewrite <- png_name_iff.
  destruct (endswith (lower image_path) ".png"); [left|right]; split; auto.
Qed.

(** ** Every way [decode] can end *)

Lemma reveal_any (L : Libs) (image_path : str) (w : World) :
  reveal L image_path w
  = (match files w !! image_path with
     | None => Raise FileNotFoundError
     | Some data =>
         match Image_open L data with
         | None => Raise CodecError
         | Some image =>
             match lsb_reveal L image with
             | None => Raise CodecError
             | Some message => Return message
             end
         end
     end, record (CallReveal image_path) w).
Proof.
  cbv [reveal bind emit image_open read_file or_raise ret raise]. cbn [files record].
  destruct (files w !! image_path) as [data|]; [|reflexivity].
  destruct (Image_open L data) as [image|]; [|reflexivity].
  destruct (lsb_reveal L image); reflexivity.
Qed.

(** [decode] on a name that passes, step by step down to the delivery. *)
Lemma decode_run (L : Libs) (image_path : str) (user_key : option str)
    (suppress_output : bool) (output_file : option str) (from_bruteforce : bool)
    (w wk : World) (key : bytes) :
  endswith (lower image_path) ".png" = true ->
  generate_key user_key w = (Return (Some key), wk) ->
  let wr := record (CallReveal image_path) wk in
  let failed (e : Exn) (w' : World) : outcome (option str) * World :=
    (Return None, record (LogDecodeError e) w') in
  decode L image_path user_key suppress_output output_file from_bruteforce w
  = match files w !! image_path with
    | None => failed FileNotFoundError wr
    | Some data =>
        match Image_open L data with
        | None => failed CodecError wr
        | Some image =>
            match lsb_reveal L image with
            | None => failed CodecError wr
            | Some encrypted_message =>
                if truthy encrypted_message then
                  match split (str_encode (default EmptyString encrypted_message)) with
                  | [] | [_] => (Return None, record PrintCorrupted wr)
                  | [encoded; metadata] =>
                      match Base64.b64decode encoded with
                      | None => failed BinasciiError wr
                      | Some token =>
                          let r := Fernet_decrypt L key token in
                          let wd := record (decrypt_event r) wr in
                          match json_loads L metadata with
                          | None => failed JSONDecodeError wd
                          | Some (JObject members) =>
                              try_except
                                (deliver r (dict_get members "filename" (JString "decoded_file"))
                                   suppress_output output_file from_bruteforce)
                                (fun e => emit (LogDecodeError e) ;; ret None) wd
                          | Some _ => failed AttributeError wd
                          end
                      end
                  | _ => failed ValueError wr
                  end
                else (Return None, record PrintNoHiddenMessage wr)
            end
        end
    end.
Proof.
  intros Hpng Hkey wr failed. unfold decode.
  rewrite (bind_eq _ _ w w true) by (rewrite ensure_png_run, Hpng; reflexivity).
  cbn [negb]. rewrite (bind_eq _ _ _ _ _ Hkey).
  pose proof (reveal_any L image_path wk) as Hreveal.
  rewrite (generate_key_files _ _ _ _ Hkey) in Hreveal. fold wr in Hreveal.
  destruct (files w !! image_path) as [data|];
    [|rewrite (try_bind_raise _ _ _ _ _ _ Hreveal); reflexivity].
  destruct (Image_open L data) as [image|];
    [|rewrite (try_bind_raise _ _ _ _ _ _ Hreveal); reflexivity].
  destruct (lsb_reveal L image) as [encrypted_message|];
    [|rewrite (try_bind_raise _ _ _ _ _ _ Hreveal); reflexivity].
  rewrite (try_bind _ _ _ _ _ _ Hreveal).
  destruct (truthy encrypted_message); [|reflexivity].
  destruct (split (str_encode (default EmptyString encrypted_message)))
    as [|encoded [|metadata [|third rest]]]; try reflexivity.
  cbn [length]. unfold Nat.ltb. cbn [Nat.leb unpack2].
  rewrite try_bind_ret. cbn [fst snd].
  destruct (Base64.b64decode encoded) as [token|]; [|reflexivity].
  cbn [or_raise]. rewrite try_bind_ret.
  rewrite (try_bind _ _ _ _ _ _ (decrypt_run _ _ _ _)).
  destruct (json_loads L metadata) as [[| | | | |members]|]; try reflexivity.
Qed.





(** [decode] on an image whose text splits in two parts. *)
Lemma decode_parts (L : Libs) (image_path : str) (user_key : option str)
    (suppress_output : bool) (output_file : option str) (from_bruteforce : bool)
    (w wk : World) (key cover_data : bytes) (image : Image L) (message : str)
    (encoded metadata : bytes) :
  endswith (lower image_path) ".png" = true ->
  generate_key user_key w = (Return (Some key), wk) ->
  files w !! image_path = Some cover_data ->
  Image_open L cover_data = Some image ->
  lsb_reveal L image = Some (Some message) ->
  split (str_encode message) = [encoded; metadata] ->
  let wr := record (CallReveal image_path) wk in
  decode L image_path user_key suppress_output output_file from_bruteforce w
  = match Base64.b64decode encoded with
    | None => (Return None, record (LogDecodeError BinasciiError) wr)
    | Some token =>
        let r := Fernet_decrypt L key token in
        let wd := record (decrypt_event r) wr in
        match json_loads L metadata with
        | None => (Return None, record (LogDecodeError JSONDecodeError) wd)
        | Some (JObject members) =>
            try_except
              (deliver r (dict_get members "filename" (JString "decoded_file"))
                 suppress_output output_file from_bruteforce)
              (fun e => emit (LogDecodeError e) ;; ret None) wd
        | Some _ => (Return None, record (LogDecodeError AttributeError) wd)
        end
    end.
Proof.
  intros Hpng Hkey Hfile Hopen Hreveal Hsplit wr.
  rewrite (decode_run L _ _ _ _ _ w wk key Hpng Hkey). cbv zeta.
  rewrite Hfile, Hopen, Hreveal.
  rewrite truthy_Some by (intros ->; discriminate Hsplit).
  cbn [default from_option id]. rewrite Hsplit. reflexivity.
Qed.

(** X9 (an image that hides nothing). When the adapter reveals no text, or
    an empty one, [decode] prints "No hidden message found!" and returns
    nothing; the key was made before the image was looked at, and no file is
    touched. *)
Theorem decode_no_message (L : Libs) (image_path : str) (user_key : option str)
    (suppress_output : bool) (output_file : option str) (from_bruteforce : bool)
    (w wk : World) (key cover_data : bytes) (image : Image L) (revealed : option str) :
  endswith (lower image_path) ".png" = true ->
  generate_key user_key w = (Return (Some key), wk) ->
  files w !! image_path = Some cover_data ->
  Image_open L cover_data = Some image ->
  lsb_reveal L image = Some revealed ->
  revealed = None \/ revealed = Some EmptyString ->
  decode L image_path user_key suppress_output output_file from_bruteforce w
  = (Return None, record PrintNoHiddenMessage (record (CallReveal image_path) wk)).
Proof.
  intros Hpng Hkey Hfile Hopen Hreveal Hempty.
  rewrite (decode_run L _ _ _ _ _ w wk key Hpng Hkey). cbv zeta.
  rewrite Hfile, Hopen, Hreveal. destruct Hempty as [-> | ->]; reflexivity.
Qed.

Lemma decode_no_message_witness :
  decode Sample.libs "cover.png" (Some "k1"%string) false None false sample_world
  = (Return None,
     record PrintNoHiddenMessage
       (record (CallReveal "cover.png") (record LogKeyFromUser sample_world))).
Proof.
  refine (decode_no_message Sample.libs "cover.png" (Some "k1"%string) false None false
            sample_world (record LogKeyFromUser sample_world) (derive_key "k1")
            Sample.cover (Sample.mkPicture 100 100 EmptyString) None _ _ _ _ _ _).
  - vm_compute. reflexivity.
  - apply generate_key_passphrase. discriminate.
  - vm_compute. reflexivity.
  - vm_compute. reflexivity.
  - vm_compute. reflexivity.
  - left. reflexivity.
Defined.

(** X10 (a first part that is not base64). When the text splits in two
    parts and the first does not decode as base64, [decode] logs the error
    and returns nothing: the cipher is not called, nothing is printed and
    no file is touched. *)
Theorem decode_bad_base64 (L : Libs) (image_path : str) (user_key : option str)
    (suppress_output : bool) (output_file : option str) (from_bruteforce : bool)
    (w wk : World) (key cover_data : bytes) (image : Image L) (message : str)
    (encoded metadata : bytes) :
  endswith (lower image_path) ".png" = true ->
  generate_key user_key w = (Return (Some key), wk) ->
  files w !! image_path = Some cover_data ->
  Image_open L cover_data = Some image ->
  lsb_reveal L image = Some (Some message) ->
  split (str_encode message) = [encoded; metadata] ->
  Base64.b64decode encoded = None ->
  decode L image_path user_key suppress_output output_file from_bruteforce w
  = (Return None,
     record (LogDecodeError BinasciiError) (record (CallReveal image_path) wk)).
Proof.
  intros Hpng Hkey Hfile Hopen Hreveal Hsplit Hbad.
  rewrite (decode_parts L _ _ _ _ _ w wk key _ _ _ _ _ Hpng Hkey Hfile Hopen Hreveal Hsplit).
  cbv zeta. rewrite Hbad. reflexivity.
Qed.

Lemma decode_bad_base64_witness :
  decode Sample.libs "bad.png" (Some "k1"%string) false None false bad_base64_world
  = (Return None,
     record (LogDecodeError BinasciiError)
       (record (CallReveal "bad.png") (record LogKeyFromUser bad_base64_world))).
Proof.
  refine (decode_bad_base64 Sample.libs "bad.png" (Some "k1"%string) false None false
            bad_base64_world (record LogKeyFromUser bad_base64_world) (derive_key "k1")
            (Sample.cover ++ [x41; x00; x00; x00; x7b; x7d])
            (Sample.mkPicture 100 100 (string_of_list_byte [x41; x00; x00; x00; x7b; x7d]))
            (string_of_list_byte [x41; x00; x00; x00; x7b; x7d]) [x41] [x7b; x7d]
            _ _ _ _ _ _ _).
  - vm_compute. reflexivity.
  - apply generate_key_passphrase. discriminate.
  - vm_compute. reflexivity.
  - vm_compute. reflexivity.
  - vm_compute. reflexivity.
  - vm_compute. reflexivity.
  - vm_compute. reflexivity.
Defined.

(** X11 (a second part that is not JSON). The token is decrypted before
    the metadata is read: when the second part does not parse, the attempt
    to decrypt has been made and logged, whatever the data, and [decode]
    then logs the error of the parser and returns nothing with no file
    touched. *)
Theorem decode_bad_metadata (L : Libs) (image_path : str) (user_key : option str)
    (suppress_output : bool) (output_file : option str) (from_bruteforce : bool)
    (w wk : World) (key cover_data : bytes) (image : Image L) (message : str)
    (encoded metadata token : bytes) :
  endswith (lower image_path) ".png" = true ->
  generate_key user_key w = (Return (Some key), wk) ->
  files w !! image_path = Some cover_data ->
  Image_open L cover_data = Some image ->
  lsb_reveal L image = Some (Some message) ->
  split (str_encode message) = [encoded; metadata] ->
  Base64.b64decode encoded = Some token ->
  json_loads L metadata = None ->
  exists w1,
    decode L image_path user_key suppress_output output_file from_bruteforce w
    = (Return None, w1)
    /\ files w1 = files w
    /\ trace w1 = LogDecodeError JSONDecodeError
                  :: decrypt_event (Fernet_decrypt L key token)
                  :: CallReveal image_path :: trace wk.
Proof.
  intros Hpng Hkey Hfile Hopen Hreveal Hsplit Htoken Hjson.
  rewrite (decode_parts L _ _ _ _ _ w wk key _ _ _ _ _ Hpng Hkey Hfile Hopen Hreveal Hsplit).
  cbv zeta. rewrite Htoken, Hjson.
  eexists. split; [reflexivity|]. split; [|reflexivity].
  exact (generate_key_files _ _ _ _ Hkey).
Qed.

Lemma decode_bad_metadata_witness :
  exists w1,
    decode Sample.libs "meta.png" (Some "k1"%string) false None false bad_metadata_world
    = (Return None, w1)
    /\ files w1 = files bad_metadata_world
    /\ trace w1 = LogDecodeError JSONDecodeError
                  :: decrypt_event (Fernet_decrypt Sample.libs (derive_key "k1")
                                      [x41; x42; x43])
                  :: CallReveal "meta.png" :: trace (record LogKeyFromUser bad_metadata_world).
Proof.
  refine (decode_bad_metadata Sample.libs "meta.png" (Some "k1"%string) false None false
            bad_metadata_world (record LogKeyFromUser bad_metadata_world) (derive_key "k1")
            (Sample.cover ++ [x51; x55; x4a; x44; x00; x00; x00; x78])
            (Sample.mkPicture 100 100
               (string_of_list_byte [x51; x55; x4a; x44; x00; x00; x00; x78]))
            (string_of_list_byte [x51; x55; x4a; x44; x00; x00; x00; x78])
            [x51; x55; x4a; x44] [x78] [x41; x42; x43] _ _ _ _ _ _ _ _).
  - vm_compute. reflexivity.
  - apply generate_key_passphrase. discriminate.
  - vm_compute. reflexivity.
  - vm_compute. reflexivity.
  - vm_compute. reflexivity.
  - vm_compute. reflexivity.
  - vm_compute. reflexivity.
  - vm_compute. reflexivity.
Defined.






(** ** The key in the log and on the screen *)



(** What a successful [encode] printed last. *)
Lemma encode_encoded_trace (L : Libs) (image_path input_data output_path : str)
    (user_key : option str) (w w1 : World) :
  encode L image_path input_data output_path user_key w = (Return ExitEncoded, w1) ->
  exists key wk rest,
    generate_key user_key w = (Return (Some key), wk)
    /\ trace w1 = PrintEncryptionKey (string_of_list_byte key) :: PrintEncoded :: rest.
Proof.
  destruct (endswith (lower image_path) ".png") eqn:Hpng.
  2:{ rewrite encode_not_png by exact Hpng. discriminate. }
  destruct (generate_key_spec user_key w) as (key & event & wk & Hkey & _).
  destruct (files w !! image_path) as [cover_data|] eqn:Hfile.
  2:{ rewrite (encode_to_open L _ _ _ _ w _ key Hpng Hkey). cbv zeta. rewrite Hfile.
      discriminate. }
  destruct (Image_open L cover_data) as [cover|] eqn:Hopen.
  2:{ rewrite (encode_to_open L _ _ _ _ w _ key Hpng Hkey). cbv zeta. rewrite Hfile, Hopen.
      discriminate. }
  rewrite (encode_opened L _ _ _ _ w _ key cover_data cover Hpng Hkey Hfile Hopen). cbv zeta.
  destruct (Fernet_encrypt L key _ _ _) as [token|]; [|discriminate].
  destruct (_ <? _); [discriminate|].
  destruct (bytes_decode _) as [message|]; [|discriminate].
  destruct (lsb_hide L cover message) as [secret|]; [|discriminate].
  destruct (Image_save L secret output_path) as [saved|]; [|discriminate].
  destruct (String.eqb output_path EmptyString); [discriminate|].
  intros [= <-]. exists key, (record event wk). eexists. split; [exact Hkey|]. reflexivity.
Qed.

(** X15 (the printed key). Without a passphrase [encode] draws a key and
    prints it with the words "Save this to decode!". Given back to [decode],
    the printed text is taken for a passphrase and hashed, so another key is
    tried: unless the SHA-256 digest of the printed text is the very 32
    bytes that were drawn, the cipher refuses and [decode] returns
    nothing. *)
Theorem printed_key_does_not_decode (L : Libs) (image_path input_data output_path : str)
    (user_key : option str) (suppress_output : bool) (output_file : option str)
    (from_bruteforce : bool) (w w1 : World) :
  LsbCorrect L -> FernetAuthentic L -> JsonCorrect L (payload_name w input_data) ->
  endswith (lower output_path) ".png" = true ->
  truthy user_key = false ->
  encode L image_path input_data output_path user_key w = (Return ExitEncoded, w1) ->
  exists printed rest,
    trace w1 = PrintEncryptionKey printed :: PrintEncoded :: rest
    /\ str_encode printed
       = Base64.urlsafe_b64encode (map (urandom w) (seq (drawn w) 32))
    /\ (SHA256.digest (str_encode printed) <> map (urandom w) (seq (drawn w) 32) ->
        fst (decode L output_path (Some printed) suppress_output output_file
               from_bruteforce w1) = Return None).
Proof.
  intros Hlsb Hauth Hjson Hpng Hnone Hrun.
  destruct (encode_encoded_trace _ _ _ _ _ _ _ Hrun) as (key & wk & rest & Hkey & Htrace).
  destruct (encode_leaves_frame L _ _ _ _ _ _ Hlsb Hpng Hrun)
    as (key' & wk' & iv & now & token & saved & image & Hkey' & Htoken & Hfile & Hopen
        & Hreveal).
  rewrite Hkey in Hkey'. injection Hkey' as <- <-.
  destruct (generate_key_spec user_key w)
    as (key' & event & wk' & Hspec & _ & _ & _ & _ & _ & Hform & Hlen & Hprint).
  rewrite Hkey in Hspec. injection Hspec as <- ->. rewrite Hnone in Hform.
  exists (string_of_list_byte key), rest. split; [exact Htrace|].
  unfold str_encode. rewrite list_byte_of_string_of_list_byte.
  split; [exact Hform|]. intros Hdigest.
  assert (string_of_list_byte key <> EmptyString) as Hne.
  { apply string_of_list_byte_nonempty. intros ->. discriminate Hlen. }
  rewrite (decode_frame L output_path (Some (string_of_list_byte key)) suppress_output
             output_file from_bruteforce w1 (record LogKeyFromUser w1)
             (derive_key (string_of_list_byte key)) saved image token
             (payload_name w input_data) Hpng (generate_key_passphrase _ w1 Hne)
             Hfile Hopen Hreveal Hjson).
  rewrite (Hauth key (derive_key (string_of_list_byte key)) iv now
             (payload_data w input_data) token); [| |exact Htoken].
  - destruct (deliver_nothing (JString (payload_name w input_data)) suppress_output
                output_file from_bruteforce
                (record (decrypt_event None)
                   (record (CallReveal output_path) (record LogKeyFromUser w1))))
      as (e & w2 & -> & _).
    reflexivity.
  - intros E. apply Hdigest. rewrite Hform in E. unfold derive_key in E.
    apply (Base64Facts.encode_injective _ Base64Facts.url_alphabet_good) in E.
    unfold str_encode in E. rewrite list_byte_of_string_of_list_byte in E.
    rewrite <- Hform in E. symmetry. exact E.
Qed.

Lemma printed_key_does_not_decode_witness :
  exists printed,
    In (PrintEncryptionKey printed) (trace random_world)
    /\ fst (decode Sample.libs "out.png" (Some printed) false None false random_world)
       = Return None.
Proof.
  destruct (printed_key_does_not_decode Sample.libs "cover.png" "hello" "out.png" None
              false None false sample_world random_world
              sample_lsb_correct sample_fernet_authentic)
    as (printed & rest & Htrace & Hform & Hfail).
  - vm_compute. split; reflexivity.
  - vm_compute. reflexivity.
  - reflexivity.
  - vm_compute. reflexivity.
  - exists printed. split; [rewrite Htrace; left; reflexivity|].
    apply Hfail. rewrite Hform. vm_compute. discriminate.
Defined.

(** ** The encryption wrappers *)

(** X16 (encrypt, then decrypt). [encrypt] draws the 16 bytes of the IV,
    reads the clock and logs its success; what it returns, [decrypt] turns
    back into the data under the same key, in any world, and logs that. *)
Theorem encrypt_then_decrypt (L : Libs) (data key token : bytes) (w w1 w2 : World) :
  FernetCorrect L ->
  encrypt L data key w = (Return (Some token), w1) ->
  decrypt L token key w2 = (Return (Some data), record LogDecrypted w2)
  /\ files w1 = files w
  /\ drawn w1 = (drawn w + 16)%nat
  /\ trace w1 = LogEncrypted :: trace w.
Proof.
  intros Hcorrect Hrun. rewrite encrypt_run in Hrun. cbv zeta in Hrun.
  destruct (Fernet_encrypt L key _ _ data) as [token'|] eqn:Htoken; [|discriminate Hrun].
  injection Hrun as <- <-.
  rewrite decrypt_run, (Hcorrect _ _ _ _ _ Htoken). repeat split.
Qed.

Lemma encrypt_then_decrypt_witness :
  decrypt Sample.libs
    (derive_key "k1" ++ map (urandom sample_world) (seq 0 16) ++ [x01; x02])
    (derive_key "k1") sample_world
  = (Return (Some [x01; x02]), record LogDecrypted sample_world)
  /\ files (snd (encrypt Sample.libs [x01; x02] (derive_key "k1") sample_world))
     = files sample_world
  /\ drawn (snd (encrypt Sample.libs [x01; x02] (derive_key "k1") sample_world))
     = (drawn sample_world + 16)%nat
  /\ trace (snd (encrypt Sample.libs [x01; x02] (derive_key "k1") sample_world))
     = LogEncrypted :: trace sample_world.
Proof.
  refine (encrypt_then_decrypt Sample.libs [x01; x02] (derive_key "k1") _ sample_world
            _ sample_world sample_fernet_correct _).
  vm_compute. reflexivity.
Defined.

(** ** The search: what every run keeps *)

Lemma run_app (L : Libs) (image_path : str) (before after : list Label) (s s' : Search) :
  run L image_path (before ++ after) s = Some s'
  <-> exists s1, run L image_path before s = Some s1 /\ run L image_path after s1 = Some s'.
Proof.
  revert s. induction before as [|l before IH]; intros s; cbn [app run].
  - split; [eauto|]. intros (s1 & [= <-] & H). exact H.
  - destruct (step L image_path l s) as [s1|]; [apply IH|].
    split; [discriminate|]. intros (s1 & H & _). discriminate.
Qed.

(** A step of a search that has ended leaves the phase, the generator, the
    words of the futures and the stop event as they are. *)
Lemma step_after_end (L : Libs) (image_path : str) (l : Label) (s s' : Search) :
  phase s <> Scanning -> step L image_path l s = Some s' ->
  phase s' = phase s /\ words s' = words s /\ retired s' = retired s
  /\ word <$> futures s' = word <$> futures s /\ stop_event s' = stop_event s.
Proof.
  intros Hphase Hstep. destruct l as [i|i|i|i| | |]; cbn [step] in Hstep.
  - destruct (futures s !! i) as [[c []]|] eqn:Hi; try discriminate.
    injection Hstep as <-. cbn. rewrite (words_insert _ _ _ _ Hi) by reflexivity. auto.
  - destruct (futures s !! i) as [[c []]|] eqn:Hi; try discriminate.
    destruct (stop_event s); injection Hstep as <-; cbn;
      rewrite (words_insert _ _ _ _ Hi) by reflexivity; auto.
  - destruct (futures s !! i) as [[c []]|] eqn:Hi; try discriminate.
    destruct (try_key L image_path c (world s)). injection Hstep as <-. cbn.
    rewrite (words_insert _ _ _ _ Hi) by reflexivity. auto.
  - destruct (phase s); try discriminate. contradiction.
  - destruct (phase s); try discriminate. contradiction.
  - destruct (phase s); try discriminate. contradiction.
  - destruct (phase s) eqn:Hp; try discriminate; injection Hstep as <-; cbn;
      rewrite words_cancel; auto.
Qed.

(** X17 (after the end). Once the main thread has left the loop, by a
    match, by the end of the wordlist or by an interrupt, whatever the workers still do:
    the outcome stays what it is, no further word is taken from the
    wordlist, no future is submitted or deleted, and the stop event keeps
    its value. *)
Theorem ended_search_submits_nothing (L : Libs) (image_path : str) (labels : list Label)
    (s s' : Search) :
  phase s <> Scanning ->
  run L image_path labels s = Some s' ->
  phase s' = phase s /\ words s' = words s /\ retired s' = retired s
  /\ word <$> futures s' = word <$> futures s /\ stop_event s' = stop_event s.
Proof.
  revert s. induction labels as [|l labels IH]; intros s Hphase Hrun; cbn [run] in Hrun.
  - injection Hrun as <-. auto.
  - destruct (step L image_path l s) as [s1|] eqn:Hstep; [|discriminate].
    destruct (step_after_end L image_path l s s1 Hphase Hstep)
      as (Hp & Hw & Hr & Hf & He).
    destruct (IH s1) as (Hp' & Hw' & Hr' & Hf' & He'); [congruence|exact Hrun|].
    repeat split; congruence.
Qed.

Lemma ended_search_submits_nothing_witness :
  phase late_state = phase found_state /\ words late_state = words found_state
  /\ retired late_state = retired found_state
  /\ word <$> futures late_state = word <$> futures found_state
  /\ stop_event late_state = stop_event found_state.
Proof.
  assert (run Sample.libs "out.png" late_labels found_state = Some late_state) as Hrun
    by (vm_compute; reflexivity).
  refine (ended_search_submits_nothing Sample.libs "out.png" late_labels found_state
            late_state _ Hrun).
  vm_compute. discriminate.
Defined.








(** X19 (after the stop event). From a state whose stop event is set, no
    run starts a decode: a worker that enters [try_key] returns at once, so
    the words attempted stay the ones attempted before, and the stop event
    is never cleared. *)
Theorem no_attempt_after_stop_event (L : Libs) (image_path : str) (labels : list Label)
    (s s' : Search) :
  stop_event s = true ->
  run L image_path labels s = Some s' ->
  attempted s' = attempted s /\ stop_event s' = true.
Proof.
  revert s. induction labels as [|l labels IH]; intros s Hflag Hrun; cbn [run] in Hrun.
  - injection Hrun as <-. auto.
  - destruct (step L image_path l s) as [s1|] eqn:Hstep; [|discriminate].
    destruct (no_attempt_after_stop L image_path l s s1 Hflag Hstep) as [Ha Hf].
    destruct (IH s1 Hf Hrun) as [Ha' Hf']. split; congruence.
Qed.

Lemma no_attempt_after_stop_event_witness :
  attempted interrupted_end = attempted interrupted_state
  /\ stop_event interrupted_end = true.
Proof.
  refine (no_attempt_after_stop_event Sample.libs "out.png" [Enter 0%nat; Shutdown]
            interrupted_state interrupted_end _ _).
  - vm_compute. reflexivity.
  - vm_compute. reflexivity.
Defined.

(** ** The search: the pool and the wordlist *)






(** ** The search: what a match is *)









(** X22 (an empty text is never found). When the empty text was hidden
    under a passphrase, [decode] with that passphrase returns it, but
    [try_key] tests the result for truth and reports no match: the search
    passes over the right word. *)
Theorem empty_text_never_matches (L : Libs) (image_path output_path K : str)
    (w w1 : World) :
  FernetCorrect L -> LsbCorrect L -> JsonCorrect L "message.txt" ->
  K <> EmptyString ->
  endswith (lower output_path) ".png" = true ->
  files w !! EmptyString = None ->
  encode L image_path EmptyString output_path (Some K) w = (Return ExitEncoded, w1) ->
  fst (decode L output_path (Some K) true None true w1) = Return (Some EmptyString)
  /\ fst (try_key L output_path K w1) = None.
Proof.
  intros Hcorrect Hlsb Hjson HK Hpng Hnone Henc.
  destruct (encode_leaves_frame_passphrase _ _ _ _ _ _ _ Hlsb HK Hpng Henc)
    as (iv & now & token & saved & image & Htoken & Hfile & Hopen & Hreveal).
  assert (payload_name w EmptyString = "message.txt"%string) as Hname
    by (unfold payload_name; rewrite Hnone; reflexivity).
  assert (payload_data w EmptyString = []) as Hdata
    by (unfold payload_data; rewrite Hnone; reflexivity).
  rewrite Hname in Hreveal. rewrite Hdata in Htoken.
  pose proof (decode_frame L output_path (Some K) true None true w1 _ _ saved image token _
                Hpng (generate_key_passphrase K w1 HK) Hfile Hopen Hreveal Hjson) as Hdec.
  rewrite (Hcorrect _ _ _ _ _ Htoken) in Hdec.
  destruct (deliver_text [] true None true
              (record (decrypt_event (Some []))
                 (record (CallReveal output_path) (record LogKeyFromUser w1))))
    as (w2 & Hdeliver & _).
  rewrite Hdeliver in Hdec.
  assert (decode L output_path (Some K) true None true w1 = (Return (Some EmptyString), w2))
    as Hrun by exact Hdec.
  split; [rewrite Hrun; reflexivity|].
  unfold try_key. rewrite Hrun. reflexivity.
Qed.

Lemma empty_text_never_matches_witness :
  fst (decode Sample.libs "out.png" (Some "k1"%string) true None true empty_text_world)
  = Return (Some EmptyString)
  /\ fst (try_key Sample.libs "out.png" "k1" empty_text_world) = None.
Proof.
  refine (empty_text_never_matches Sample.libs "cover.png" "out.png" "k1" sample_world
            empty_text_world sample_fernet_correct sample_lsb_correct _ _ _ _ _).
  - vm_compute. split; reflexivity.
  - discriminate.
  - vm_compute. reflexivity.
  - vm_compute. reflexivity.
  - vm_compute. reflexivity.
Defined.
